(** * csi-driver-nfs: the controller server of the NFS CSI driver

    A shallow embedding of [pkg/nfs/controllerserver.go] and of the part of
    [pkg/nfs/nfs.go] it reads (the supported access-mode map), followed by
    the properties of the volume-id codec, of parameter and capability
    validation and of the CreateVolume / DeleteVolume workflows.

    Go strings are byte sequences: they are modelled by [string], whose
    characters are the 256 byte values.  Go maps with an unspecified
    iteration order are modelled by the sequence of entries in the order a
    [range] loop visits them. *)

From Stdlib Require Import ZArith Ascii String List Lia.
From stdpp Require Import base list strings gmap.

Local Open Scope Z_scope.
Set Warnings "-clear-no-such-hyp".

(** ** The Go standard library functions the controller calls *)

Module strings.

(** [strings.Split(s, sep)] for a separator [sep] of one byte: the
    substrings between the occurrences of [sep], in order.  The result
    always has one more element than [s] has separators, so the empty
    string splits into one empty element. *)
Fixpoint Split (s : string) (sep : ascii) : list string :=
  match s with
  | EmptyString => [EmptyString]
  | String c s' =>
      if Ascii.eqb c sep then EmptyString :: Split s' sep
      else match Split s' sep with
           | [] => [String c EmptyString]
           | t :: ts => String c t :: ts
           end
  end.

(** [strings.Join(elems, sep)]. *)
Fixpoint Join (elems : list string) (sep : string) : string :=
  match elems with
  | [] => EmptyString
  | [a] => a
  | a :: rest => a +:+ sep +:+ Join rest sep
  end.

(** The byte loop of [strings.ToLower] on a string of ASCII bytes. *)
Definition lower_byte (c : ascii) : ascii :=
  let n := N_of_ascii c in
  if ((65 <=? n) && (n <=? 90))%N then ascii_of_N (n + 32) else c.

Fixpoint isASCII (s : string) : bool :=
  match s with
  | EmptyString => true
  | String c s' => (N_of_ascii c <? 128)%N && isASCII s'
  end.

Fixpoint lower_bytes (s : string) : string :=
  match s with
  | EmptyString => EmptyString
  | String c s' => String (lower_byte c) (lower_bytes s')
  end.

(** [strings.ToLower(s)]: the byte loop when every byte of [s] is below
    [utf8.RuneSelf], and [strings.Map(unicode.ToLower, s)] otherwise.
    The Unicode case tables are not part of this development:
    [mapLower] stands for [strings.Map(unicode.ToLower, _)]. *)
Definition ToLower (mapLower : string → string) (s : string) : string :=
  if isASCII s then lower_bytes s else mapLower s.

(** Number of occurrences of a byte, [strings.Count(s, string(c))];
    the controller does not call it, the statements below do. *)
Fixpoint Count (s : string) (c : ascii) : nat :=
  match s with
  | EmptyString => 0%nat
  | String a s' => ((if Ascii.eqb a c then 1 else 0) + Count s' c)%nat
  end.

(** [strings.ContainsRune(s, c)] for a byte [c]; for the statements
    too. *)
Fixpoint Contains (s : string) (c : ascii) : bool :=
  match s with
  | EmptyString => false
  | String a s' => Ascii.eqb a c || Contains s' c
  end.

End strings.

Module filepath.

Definition Separator : ascii := "/"%char.

(** One step of [filepath.Clean]'s scan, on the path element [e] with
    the elements written so far in [out], last first.  [..] removes the
    last element written, unless there is none or it is itself a [..]
    of the leading [../..] prefix; then a rooted path drops it and a
    relative path writes it. *)
Definition clean_step (rooted : bool) (out : list string) (e : string)
  : list string :=
  if bool_decide (e = "") then out
  else if bool_decide (e = ".") then out
  else if bool_decide (e = "..") then
    match out with
    | x :: out' =>
        if bool_decide (x = "..") then (if rooted then out else e :: out)
        else out'
    | [] => if rooted then out else [e]
    end
  else e :: out.

Definition rooted (path : string) : bool :=
  match path with
  | String c _ => Ascii.eqb c Separator
  | EmptyString => false
  end.

(** [filepath.Clean(path)] on Unix, computed on the elements of [path]
    between separators rather than byte by byte: empty and [.] elements
    are dropped, [..] is resolved against the element before it, and
    the empty result is [.]. *)
Definition Clean (path : string) : string :=
  let r := rooted path in
  let out := fold_left (clean_step r) (strings.Split path Separator) [] in
  if r then String Separator (strings.Join (rev out) "/")
  else match out with
       | [] => "."
       | _ => strings.Join (rev out) "/"
       end.

(** [filepath.Join(elem...)]: the elements from the first non-empty one
    on, joined with the separator and cleaned; [""] if all are empty. *)
Fixpoint Join (elem : list string) : string :=
  match elem with
  | [] => ""
  | e :: rest =>
      if bool_decide (e = "") then Join rest
      else Clean (strings.Join elem "/")
  end.

End filepath.

(** ** The CSI messages the controller reads and builds
    (generated code of [github.com/container-storage-interface/spec]) *)

Module csi.

(** [VolumeCapability_AccessMode_Mode], an [int32] enumeration. *)
Definition VolumeCapability_AccessMode_Mode := Z.
Definition VolumeCapability_AccessMode_UNKNOWN : Z := 0.
Definition VolumeCapability_AccessMode_SINGLE_NODE_WRITER : Z := 1.
Definition VolumeCapability_AccessMode_SINGLE_NODE_READER_ONLY : Z := 2.
Definition VolumeCapability_AccessMode_MULTI_NODE_READER_ONLY : Z := 3.
Definition VolumeCapability_AccessMode_MULTI_NODE_SINGLE_WRITER : Z := 4.
Definition VolumeCapability_AccessMode_MULTI_NODE_MULTI_WRITER : Z := 5.

Record VolumeCapability_AccessMode := {
  Mode : VolumeCapability_AccessMode_Mode
}.

Record VolumeCapability_MountVolume := {
  FsType : string;
  MountFlags : list string
}.

Inductive VolumeCapability_BlockVolume := BlockVolume.

(** The oneof [access_type]: a wrapper around a pointer to the block or
    the mount descriptor. *)
Inductive isVolumeCapability_AccessType :=
| VolumeCapability_Block (Block : option VolumeCapability_BlockVolume)
| VolumeCapability_Mount (Mount : option VolumeCapability_MountVolume).

Record VolumeCapability := {
  AccessType : option isVolumeCapability_AccessType;
  AccessMode : option VolumeCapability_AccessMode
}.

Definition GetAccessMode (c : VolumeCapability) := AccessMode c.
Definition GetAccessType (c : VolumeCapability) := AccessType c.
Definition GetMount (c : VolumeCapability)
  : option VolumeCapability_MountVolume :=
  match GetAccessType c with
  | Some (VolumeCapability_Mount x) => x
  | _ => None
  end.

Record CapacityRange := {
  RequiredBytes : Z;
  LimitBytes : Z
}.

Definition GetRequiredBytes (r : option CapacityRange) : Z :=
  match r with Some r => RequiredBytes r | None => 0 end.

(** [Parameters] is a Go map: its entries in the order in which the
    [range] loop of the request at hand visits them. *)
Record CreateVolumeRequest := {
  Name : string;
  CapacityRange_ : option CapacityRange;
  VolumeCapabilities : list (option VolumeCapability);
  Parameters : list (string * string)
}.

Record Volume := {
  CapacityBytes : Z;
  VolumeId : string;
  VolumeContext : gmap string string
}.

Record CreateVolumeResponse := { Volume_ : option Volume }.

Record DeleteVolumeRequest := { VolumeId_ : string }.

Inductive DeleteVolumeResponse := EmptyDeleteVolumeResponse.

Record NodePublishVolumeRequest := {
  TargetPath : string;
  PublishContext : gmap string string
}.

Record NodeUnpublishVolumeRequest := { TargetPath_ : string }.

End csi.

(** ** Errors and gRPC statuses *)

(** One constructor for each [fmt.Errorf] of the controller; [Foreign]
    is an error returned by a collaborator (node server, [os]), with the
    text of its [Error()]. *)
Inductive error :=
| ErrCapabilitiesMissing
| ErrCapabilityNil
| ErrAccessModeNotSet
| ErrAccessModeUnsupported (m : csi.VolumeCapability_AccessMode_Mode)
| ErrAccessTypeNotSet
| ErrMountOnly
| ErrInvalidParameter (k : string)
| ErrRequiredParameter (p : string)
| ErrIdFormat (id : string) (tokens : nat)
| Foreign (msg : string).

Module codes.
Inductive Code := OK | InvalidArgument | Internal | Unimplemented.
End codes.

Module status.

(** What the message of a status is built from. *)
Inductive Message :=
| NameMissing
| VolumeIdEmpty
| OfError (e : error)
| MountFailed (e : error)
| MkdirFailed (e : error)
| RemoveFailed (e : error).

Record Status := Error { Code : codes.Code; Msg : Message }.

End status.

(** The two results of an RPC method: [(resp, nil)] and [(nil, err)]. *)
Inductive rpc (A : Type) :=
| Reply (resp : A)
| Fail (err : status.Status).
Arguments Reply {A} resp.
Arguments Fail {A} err.

(** ** Calls to the collaborators *)

(** The controller reaches the outside through the node server (which
    mounts and unmounts) and through [os]; each call returns an [error],
    [None] for [nil].  Logging through [glog] is not modelled. *)
Inductive Op :=
| NodePublishVolume (req : csi.NodePublishVolumeRequest)
| NodeUnpublishVolume (req : csi.NodeUnpublishVolumeRequest)
| os_Mkdir (path : string) (perm : Z)
| os_RemoveAll (path : string).

(** A method body: a result, or a call and what follows its result. *)
Inductive Prog (A : Type) :=
| Ret (a : A)
| Do (op : Op) (k : option error → Prog A).
Arguments Ret {A} a.
Arguments Do {A} op k.

Fixpoint bind {A B} (p : Prog A) (f : A → Prog B) : Prog B :=
  match p with
  | Ret a => f a
  | Do op k => Do op (λ r, bind (k r) f)
  end.

Global Instance Prog_ret : MRet Prog := @Ret.
Global Instance Prog_bind : MBind Prog := λ A B f p, bind p f.

Definition call (op : Op) : Prog (option error) := Do op Ret.

(** [defer cleanup] before [body]: [cleanup] runs when [body] returns,
    and the value returned is the one [body] computed (the results of the
    methods are not named, so the deferred function cannot change them). *)
Definition defer {A} (cleanup : Prog unit) (body : Prog A) : Prog A :=
  a ← body; _ ← cleanup; Ret a.

(** Running a method in a world [W] whose collaborators are [h]: the
    result, the world after, and the calls made, in order. *)
Fixpoint run {W A} (h : Op → W → option error * W) (p : Prog A) (w : W)
  : A * W * list Op :=
  match p with
  | Ret a => (a, w, [])
  | Do op k =>
      let '(r, w1) := h op w in
      let '(a, w2, t) := run h (k r) w1 in
      (a, w2, op :: t)
  end.

(** ** pkg/nfs/nfs.go *)

(** The driver.  Its node server [ns] is reached through [Op]; its
    controller capabilities [cscap] are not read by the methods below. *)

Record nfsDriver := {
  name : string;
  nodeID : string;
  version_ : string;
  endpoint : string;
  cap : gmap csi.VolumeCapability_AccessMode_Mode bool
}.

Definition driverName : string := "nfs.csi.k8s.io".
Definition internalMountDir : string := "/provisioner-working-mounts".
Definition version : string := "2.0.0".

(** [n.cap[c] = true] for every [c] of [vc]. *)
Definition AddVolumeCapabilityAccessModes (n : nfsDriver)
    (vc : list csi.VolumeCapability_AccessMode_Mode) : nfsDriver :=
  fold_left
    (λ n c, {| name := name n; nodeID := nodeID n; version_ := version_ n;
               endpoint := endpoint n; cap := <[c := true]> (cap n) |})
    vc n.

Definition NewNFSdriver (nodeID endpoint : string) : nfsDriver :=
  let n := {| name := driverName; version_ := version; nodeID := nodeID;
              endpoint := endpoint; cap := ∅ |} in
  let vcam := [ csi.VolumeCapability_AccessMode_SINGLE_NODE_WRITER;
                csi.VolumeCapability_AccessMode_SINGLE_NODE_READER_ONLY;
                csi.VolumeCapability_AccessMode_MULTI_NODE_READER_ONLY;
                csi.VolumeCapability_AccessMode_MULTI_NODE_SINGLE_WRITER;
                csi.VolumeCapability_AccessMode_MULTI_NODE_MULTI_WRITER ] in
  AddVolumeCapabilityAccessModes n vcam.

(** Reading a Go [map[K]bool]: the zero value [false] for a missing key. *)
Definition index_bool `{Countable K} (m : gmap K bool) (k : K) : bool :=
  default false (m !! k).

(** ** pkg/nfs/controllerserver.go *)

Record ControllerServer := {
  Driver : nfsDriver;
  (* Working directory for the provisioner to temporarily mount nfs
     shares at *)
  workingMountDir : string
}.

(** The internal representation of a volume created by the provisioner. *)
Record nfsVolume := {
  id : string;       (* Volume id *)
  server : string;   (* Address of the NFS server *)
  baseDir : string;  (* Base directory of the NFS server *)
  subDir : string    (* Subdirectory of the NFS server *)
}.

(** CSI CreateVolume parameters *)
Definition paramServer : string := "server".
Definition paramBaseDir : string := "base-dir".

(** CSI Volume attributes *)
Definition attrServer : string := "server".
Definition attrShare : string := "share".

(** Ordering of elements in the CSI volume id. *)
Definition idServer : nat := 0.
Definition idBaseDir : nat := 1.
Definition idSubDir : nat := 2.
Definition totalIDElements : nat := 3.

Definition NewControllerServer (d : nfsDriver) (workingDir : string)
  : ControllerServer :=
  {| Driver := d; workingMountDir := workingDir |}.

Definition validateVolumeCapability (cs : ControllerServer)
    (c : option csi.VolumeCapability) : option error :=
  match c with
  | None => Some ErrCapabilityNil
  | Some c =>
      (* Validate access mode *)
      match csi.GetAccessMode c with
      | None => Some ErrAccessModeNotSet
      | Some accessMode =>
          if negb (index_bool (cap (Driver cs)) (csi.Mode accessMode))
          then Some (ErrAccessModeUnsupported (csi.Mode accessMode))
          else
            (* Validate access type *)
            match csi.GetAccessType c with
            | None => Some ErrAccessTypeNotSet
            | Some _ =>
                match csi.GetMount c with
                | None => Some ErrMountOnly
                | Some mountType =>
                    if bool_decide (csi.FsType mountType ≠ "")
                    then None (* the rejection is commented out *)
                    else None
                end
            end
      end
  end.

(** The loop of [validateVolumeCapabilities]: the first error. *)
Fixpoint validateEach (cs : ControllerServer)
    (caps : list (option csi.VolumeCapability)) : option error :=
  match caps with
  | [] => None
  | c :: rest =>
      match validateVolumeCapability cs c with
      | Some err => Some err
      | None => validateEach cs rest
      end
  end.

Definition validateVolumeCapabilities (cs : ControllerServer)
    (caps : list (option csi.VolumeCapability)) : option error :=
  if bool_decide (length caps = 0%nat) then Some ErrCapabilitiesMissing
  else validateEach cs caps.

(** Get working directory for CreateVolume and DeleteVolume *)
Definition getInternalMountPath (cs : ControllerServer) (vol : nfsVolume)
  : string :=
  filepath.Join [workingMountDir cs; subDir vol].

(** Get internal path where the volume is created *)
Definition getInternalVolumePath (cs : ControllerServer) (vol : nfsVolume)
  : string :=
  filepath.Join [getInternalMountPath cs vol; subDir vol].

(** Get user-visible share path for the volume *)
Definition getVolumeSharePath (cs : ControllerServer) (vol : nfsVolume)
  : string :=
  filepath.Join ["/"; baseDir vol; subDir vol].

(** Mount nfs server at base-dir *)
Definition internalMount (cs : ControllerServer) (vol : nfsVolume)
  : Prog (option error) :=
  let sharePath := filepath.Join ["/" +:+ baseDir vol] in
  let targetPath := getInternalMountPath cs vol in
  call (NodePublishVolume
          {| csi.TargetPath := targetPath;
             csi.PublishContext :=
               {[ "server" := server vol; "share" := sharePath ]} |}).

(** Unmount nfs server at base-dir *)
Definition internalUnmount (cs : ControllerServer) (vol : nfsVolume)
  : Prog (option error) :=
  call (NodeUnpublishVolume
          {| csi.TargetPath_ := getInternalMountPath cs vol |}).

(** Given a nfsVolume, return a CSI volume id *)
Definition getVolumeIdFromNfsVol (cs : ControllerServer) (vol : nfsVolume)
  : string :=
  let idElements := replicate totalIDElements "" in
  let idElements := <[idServer := server vol]> idElements in
  let idElements := <[idBaseDir := baseDir vol]> idElements in
  let idElements := <[idSubDir := subDir vol]> idElements in
  strings.Join idElements "/".

(** Given a CSI volume id, return a nfsVolume *)
Definition getNfsVolFromId (cs : ControllerServer) (id : string)
  : error + nfsVolume :=
  let tokens := strings.Split id "/" in
  if bool_decide (length tokens ≠ totalIDElements)
  then inl (ErrIdFormat id (length tokens))
  else inr {| id := id;
              server := tokens !!! idServer;
              baseDir := tokens !!! idBaseDir;
              subDir := tokens !!! idSubDir |}.

(** Convert into nfsVolume into a csi.Volume *)
Definition nfsVolToCSI (cs : ControllerServer) (vol : nfsVolume)
    (reqBytes : Z) : csi.Volume :=
  {| csi.CapacityBytes := reqBytes;
     csi.VolumeId := id vol;
     csi.VolumeContext :=
       {[ attrServer := server vol;
          attrShare := getVolumeSharePath cs vol ]} |}.

Section Controller.

(** [strings.Map(unicode.ToLower, _)], which [strings.ToLower] applies to
    a string with a byte outside ASCII. *)
Variable mapLower : string → string.

(** The loop of [newNFSVolume] over the parameters, from the values of
    [server] and [baseDir] collected so far. *)
Fixpoint rangeParams (params : list (string * string))
    (server baseDir : string) : error + string * string :=
  match params with
  | [] => inr (server, baseDir)
  | (k, v) :: rest =>
      let lk := strings.ToLower mapLower k in
      if bool_decide (lk = paramServer) then rangeParams rest v baseDir
      else if bool_decide (lk = paramBaseDir) then rangeParams rest server v
      else inl (ErrInvalidParameter k)
  end.

(** Convert VolumeCreate parameters to an nfsVolume *)
Definition newNFSVolume (cs : ControllerServer) (name : string)
    (params : list (string * string)) : error + nfsVolume :=
  (* Validate parameters (case-insensitive). *)
  match rangeParams params "" "" with
  | inl err => inl err
  | inr (server, baseDir) =>
      (* Validate required parameters *)
      if bool_decide (server = "") then inl (ErrRequiredParameter paramServer)
      else if bool_decide (baseDir = "")
      then inl (ErrRequiredParameter paramBaseDir)
      else
        let vol := {| id := ""; server := server; baseDir := baseDir;
                      subDir := name |} in
        inr {| id := getVolumeIdFromNfsVol cs vol; server := server;
               baseDir := baseDir; subDir := name |}
  end.

Definition CreateVolume (cs : ControllerServer)
    (req : csi.CreateVolumeRequest) : Prog (rpc csi.CreateVolumeResponse) :=
  (* Validate arguments *)
  let name := csi.Name req in
  if bool_decide (String.length name = 0%nat)
  then Ret (Fail (status.Error codes.InvalidArgument status.NameMissing))
  else
    match validateVolumeCapabilities cs (csi.VolumeCapabilities req) with
    | Some err =>
        Ret (Fail (status.Error codes.InvalidArgument (status.OfError err)))
    | None =>
        match newNFSVolume cs name (csi.Parameters req) with
        | inl err =>
            Ret (Fail (status.Error codes.InvalidArgument
                         (status.OfError err)))
        | inr nfsVol =>
            (* Mount nfs base share so we can create a subdirectory *)
            err ← internalMount cs nfsVol;
            match err with
            | Some err =>
                Ret (Fail (status.Error codes.Internal
                             (status.MountFailed err)))
            | None =>
                defer (_ ← internalUnmount cs nfsVol; Ret tt)
                  ((* Create subdirectory under base-dir *)
                   let internalVolumePath :=
                     getInternalVolumePath cs nfsVol in
                   err ← call (os_Mkdir internalVolumePath 493 (* 0755 *));
                   match err with
                   | Some err =>
                       Ret (Fail (status.Error codes.Internal
                                    (status.MkdirFailed err)))
                   | None =>
                       Ret (Reply
                              {| csi.Volume_ :=
                                   Some (nfsVolToCSI cs nfsVol
                                           (csi.GetRequiredBytes
                                              (csi.CapacityRange_ req))) |})
                   end)
            end
        end
    end.

End Controller.

Definition DeleteVolume (cs : ControllerServer)
    (req : csi.DeleteVolumeRequest) : Prog (rpc csi.DeleteVolumeResponse) :=
  let volumeId := csi.VolumeId_ req in
  if bool_decide (volumeId = "")
  then Ret (Fail (status.Error codes.InvalidArgument status.VolumeIdEmpty))
  else
    match getNfsVolFromId cs volumeId with
    | inl err =>
        (* An invalid ID should be treated as doesn't exist *)
        Ret (Reply csi.EmptyDeleteVolumeResponse)
    | inr nfsVol =>
        (* Mount nfs base share so we can delete the subdirectory *)
        err ← internalMount cs nfsVol;
        match err with
        | Some err =>
            Ret (Fail (status.Error codes.Internal (status.MountFailed err)))
        | None =>
            defer (_ ← internalUnmount cs nfsVol; Ret tt)
              ((* Delete subdirectory under base-dir *)
               let internalVolumePath := getInternalVolumePath cs nfsVol in
               err ← call (os_RemoveAll internalVolumePath);
               match err with
               | Some err =>
                   Ret (Fail (status.Error codes.Internal
                                (status.RemoveFailed err)))
               | None => Ret (Reply csi.EmptyDeleteVolumeResponse)
               end)
        end
    end.

(** ** The controller of the tests, and notions used in the statements *)

(** [initTestController] of the tests: the driver of [NewNFSdriver] and
    a working directory. *)
Definition initTestController (tmpDir : string) : ControllerServer :=
  NewControllerServer (NewNFSdriver "" "") tmpDir.

(** The capability of the tests: a mount descriptor with the access
    mode [MULTI_NODE_MULTI_WRITER]. *)
Definition testCapability : option csi.VolumeCapability :=
  Some {| csi.AccessType :=
            Some (csi.VolumeCapability_Mount
                    (Some {| csi.FsType := ""; csi.MountFlags := [] |}));
          csi.AccessMode :=
            Some {| csi.Mode :=
                      csi.VolumeCapability_AccessMode_MULTI_NODE_MULTI_WRITER
                 |} |}.

(** The request of the tests for a name and parameters: no capacity
    range and the capability above. *)
Definition testRequest (name : string) (params : list (string * string))
  : csi.CreateVolumeRequest :=
  {| csi.Name := name; csi.CapacityRange_ := None;
     csi.VolumeCapabilities := [testCapability];
     csi.Parameters := params |}.

(** A stand-in for [strings.Map(unicode.ToLower, _)] on which to run the
    methods on ASCII keys, which never reach it. *)
Definition keepRunes (s : string) : string := s.

(** Collaborators that always succeed and keep no state. *)
Definition alwaysOk (op : Op) (w : unit) : option error * unit := (None, w).

(** The id of a volume is its server, base directory and subdirectory
    joined with [/], in this order. *)
Definition id_invariant (vol : nfsVolume) : Prop :=
  id vol = strings.Join [server vol; baseDir vol; subDir vol] "/".

(** A string without the separator. *)
Definition no_slash (s : string) : Prop := strings.Contains s "/" = false.

(** The driver supports an access mode when its map sends it to [true]. *)
Definition supports (d : nfsDriver)
    (m : csi.VolumeCapability_AccessMode_Mode) : Prop :=
  cap d !! m = Some true.

(** The access type of a capability carries a mount descriptor. *)
Definition mount_descriptor (c : csi.VolumeCapability) : Prop :=
  ∃ mv, csi.AccessType c = Some (csi.VolumeCapability_Mount (Some mv)).

(** The capabilities that are to be rejected: null, access mode unset or
    not supported, access type unset or not a mount descriptor. *)
Definition rejected_capability (d : nfsDriver)
    (c : option csi.VolumeCapability) : Prop :=
  match c with
  | None => True
  | Some c =>
      csi.AccessMode c = None
      ∨ (∃ am, csi.AccessMode c = Some am ∧ ¬ supports d (csi.Mode am))
      ∨ csi.AccessType c = None
      ∨ ¬ mount_descriptor c
  end.

(** The key [k] of a parameter is the parameter [p], whatever its case. *)
Definition matches (mapLower : string → string) (p k : string) : Prop :=
  strings.ToLower mapLower k = p.

Definition recognized (mapLower : string → string) (k : string) : Prop :=
  matches mapLower paramServer k ∨ matches mapLower paramBaseDir k.

(** A path element that [filepath.Clean] keeps as it is: not empty, not
    [.] or [..], and without separator. *)
Definition plain_element (e : string) : Prop :=
  e ≠ "" ∧ e ≠ "." ∧ e ≠ ".." ∧ no_slash e.

(** A path made of plain elements with one [/] between them, rooted or
    not: [a/b/c] or [/a/b/c]. *)
Definition clean_path (w : string) : Prop :=
  ∃ ps, ps ≠ [] ∧ Forall plain_element ps
        ∧ (w = strings.Join ps "/" ∨ w = String "/" (strings.Join ps "/")).

(** ** Notions used in the statements on the workflows *)

(** The call [internalMount] makes for a volume, and the call
    [internalUnmount] makes. *)
Definition mountOp (cs : ControllerServer) (vol : nfsVolume) : Op :=
  NodePublishVolume
    {| csi.TargetPath := getInternalMountPath cs vol;
       csi.PublishContext :=
         {[ "server" := server vol;
            "share" := filepath.Join ["/" +:+ baseDir vol] ]} |}.

Definition unmountOp (cs : ControllerServer) (vol : nfsVolume) : Op :=
  NodeUnpublishVolume {| csi.TargetPath_ := getInternalMountPath cs vol |}.

(** The slice [AddVolumeCapabilityAccessModes] returns: an access mode
    for each element of [vc], in order. *)
Definition AddVolumeCapabilityAccessModes_vca
    (vc : list csi.VolumeCapability_AccessMode_Mode)
  : list csi.VolumeCapability_AccessMode :=
  (λ c, {| csi.Mode := c |}) <$> vc.

(** Collaborators without state that refuse the calls [bad] selects. *)
Definition refusing (bad : Op → bool) (op : Op) (w : unit)
  : option error * unit :=
  (if bad op then Some (Foreign "refused") else None, w).

Definition isNodePublishVolume (op : Op) : bool :=
  match op with NodePublishVolume _ => true | _ => false end.

Definition isMkdir (op : Op) : bool :=
  match op with os_Mkdir _ _ => true | _ => false end.


(** An absolute path of plain elements: [/] or [/a/b/c]. *)
Definition rooted_clean (p : string) : Prop :=
  ∃ ps, Forall plain_element ps ∧ p = String "/" (strings.Join ps "/").

(** Keys that are the same in lower case have the same value. *)
Definition single_valued (mapLower : string → string)
    (params : list (string * string)) : Prop :=
  ∀ k v k' v', (k, v) ∈ params → (k', v') ∈ params →
    strings.ToLower mapLower k = strings.ToLower mapLower k' → v = v'.

(** * Properties *)

(** ** Splitting and joining *)

Section SplitJoin.

Variable sep : ascii.

Lemma append_String (a : ascii) (s t : string) :
  String a s +:+ t = String a (s +:+ t).
Proof. reflexivity. Qed.

Lemma append_empty_r (s : string) : s +:+ "" = s.
Proof. induction s as [|a s IH]; [done|]. by rewrite append_String, IH. Qed.

Lemma append_assoc (s t u : string) : (s +:+ t) +:+ u = s +:+ t +:+ u.
Proof.
  induction s as [|a s IH]; [done|]. by rewrite !append_String, IH.
Qed.

Lemma Split_not_nil (s : string) : strings.Split s sep ≠ [].
Proof.
  destruct s as [|c s]; simpl; [done|].
  destruct (Ascii.eqb c sep); [done|]. by destruct (strings.Split s sep).
Qed.

(** A string has one more element than separators. *)
Lemma length_Split (s : string) :
  length (strings.Split s sep) = S (strings.Count s sep).
Proof.
  induction s as [|c s IH]; simpl; [done|].
  destruct (Ascii.eqb c sep); simpl; [by rewrite IH|].
  pose proof (Split_not_nil s).
  destruct (strings.Split s sep); [done|]. by rewrite <- IH.
Qed.

Lemma Split_no_sep (s : string) :
  strings.Contains s sep = false → strings.Split s sep = [s].
Proof.
  induction s as [|c s IH]; simpl; [done|].
  destruct (Ascii.eqb c sep); simpl; [done|].
  intros H. by rewrite (IH H).
Qed.

Lemma Split_app_sep (e rest : string) :
  strings.Contains e sep = false →
  strings.Split (e +:+ String sep rest) sep = e :: strings.Split rest sep.
Proof.
  induction e as [|c e IH]; simpl.
  - intros _. unfold String.append. simpl. by rewrite Ascii.eqb_refl.
  - destruct (Ascii.eqb c sep) eqn:E; simpl; [done|].
    intros H. by rewrite (IH H).
Qed.

Lemma Join_cons (a : string) (l : list string) (s : string) :
  l ≠ [] → strings.Join (a :: l) s = a +:+ s +:+ strings.Join l s.
Proof. by destruct l. Qed.

Lemma Join_snoc (l : list string) (a : string) (s : string) :
  l ≠ [] → strings.Join (l ++ [a]) s = strings.Join l s +:+ s +:+ a.
Proof.
  induction l as [|x l IH]; [done|]. intros _.
  destruct l as [|y l]; [done|].
  change ((x :: y :: l) ++ [a]) with (x :: ((y :: l) ++ [a])).
  rewrite !Join_cons by done. rewrite IH by done.
  by rewrite !append_assoc.
Qed.

(** Joining what [Split] returns gives the string back. *)
Lemma Join_Split (s : string) :
  strings.Join (strings.Split s sep) (String sep "") = s.
Proof.
  induction s as [|c s IH]; simpl; [done|].
  pose proof (Split_not_nil s) as Hne.
  destruct (Ascii.eqb c sep) eqn:E.
  - apply Ascii.eqb_eq in E as ->.
    rewrite Join_cons by done. by rewrite IH.
  - destruct (strings.Split s sep) as [|t ts]; [done|].
    destruct ts as [|u ts]; simpl in *; [by rewrite IH|].
    by rewrite append_String, IH.
Qed.

(** Splitting the join of elements that hold no separator gives the
    elements back. *)
Lemma Split_Join (l : list string) :
  l ≠ [] → Forall (λ e, strings.Contains e sep = false) l →
  strings.Split (strings.Join l (String sep "")) sep = l.
Proof.
  induction l as [|a l IH]; [done|]. intros _ Hall.
  apply Forall_cons in Hall as [Ha Hl].
  destruct l as [|b l]; [by apply Split_no_sep|].
  rewrite Join_cons by done.
  change (String sep "" +:+ ?x) with (String sep x).
  rewrite Split_app_sep by done. by rewrite IH.
Qed.

End SplitJoin.

(** ** The volume-id codec *)

Lemma getVolumeIdFromNfsVol_Join (cs : ControllerServer) (vol : nfsVolume) :
  getVolumeIdFromNfsVol cs vol
  = strings.Join [server vol; baseDir vol; subDir vol] "/".
Proof. reflexivity. Qed.

(** Decoding the id of any volume whose three fields hold no [/] gives
    the fields back; the fields need not be non-empty for this. *)
Lemma getNfsVolFromId_encode (cs : ControllerServer) (vol : nfsVolume) :
  no_slash (server vol) → no_slash (baseDir vol) → no_slash (subDir vol) →
  getNfsVolFromId cs (getVolumeIdFromNfsVol cs vol)
  = inr {| id := getVolumeIdFromNfsVol cs vol; server := server vol;
           baseDir := baseDir vol; subDir := subDir vol |}.
Proof.
  intros Hs Hb Hd. unfold getNfsVolFromId.
  rewrite getVolumeIdFromNfsVol_Join.
  rewrite (Split_Join "/" [server vol; baseDir vol; subDir vol]);
    [done | done | by repeat constructor].
Qed.

(** C1: for non-empty [server], [baseDir] and [subDir] without [/],
    decoding the id that [getVolumeIdFromNfsVol] builds from them succeeds
    and returns the same three fields. *)
Theorem decode_encode_roundtrip (cs : ControllerServer) (i s b d : string) :
  s ≠ "" → b ≠ "" → d ≠ "" → no_slash s → no_slash b → no_slash d →
  let vol := {| id := i; server := s; baseDir := b; subDir := d |} in
  ∃ vol', getNfsVolFromId cs (getVolumeIdFromNfsVol cs vol) = inr vol'
          ∧ server vol' = s ∧ baseDir vol' = b ∧ subDir vol' = d.
Proof.
  intros _ _ _ Hs Hb Hd vol.
  eexists. split; [by apply getNfsVolFromId_encode|]. done.
Qed.

Lemma decode_encode_roundtrip_witness :
  ∃ vol', getNfsVolFromId (initTestController "/tmp")
            (getVolumeIdFromNfsVol (initTestController "/tmp")
               {| id := ""; server := "test-server";
                  baseDir := "test-base-dir"; subDir := "test-csi" |})
          = inr vol'
          ∧ server vol' = "test-server"
          ∧ baseDir vol' = "test-base-dir"
          ∧ subDir vol' = "test-csi".
Proof.
  apply (decode_encode_roundtrip (initTestController "/tmp") ""
           "test-server" "test-base-dir" "test-csi"); done.
Defined.

(** What [getNfsVolFromId] returns, by the number of elements of [s]. *)
Lemma getNfsVolFromId_tokens (cs : ControllerServer) (s : string) :
  match getNfsVolFromId cs s with
  | inl err =>
      length (strings.Split s "/") ≠ 3%nat
      ∧ err = ErrIdFormat s (length (strings.Split s "/"))
  | inr vol =>
      strings.Split s "/" = [server vol; baseDir vol; subDir vol]
      ∧ id vol = s
  end.
Proof.
  unfold getNfsVolFromId, totalIDElements.
  case_bool_decide as Hlen; [done|].
  destruct (strings.Split s "/") as [|a [|b [|c [|d l]]]]; done.
Qed.

(** C2, as the code has it: [getNfsVolFromId] fails exactly when [s]
    does not split on [/] into three elements, that is when [s] does not
    hold two [/]; otherwise it returns the three elements, empty or
    not. *)
Theorem getNfsVolFromId_three_tokens (cs : ControllerServer) (s : string) :
  match getNfsVolFromId cs s with
  | inl err =>
      length (strings.Split s "/") ≠ 3%nat ∧ strings.Count s "/" ≠ 2%nat
  | inr vol =>
      strings.Split s "/" = [server vol; baseDir vol; subDir vol]
      ∧ strings.Count s "/" = 2%nat
  end.
Proof.
  pose proof (getNfsVolFromId_tokens cs s) as H.
  pose proof (length_Split "/" s) as Hlen.
  destruct (getNfsVolFromId cs s) as [err|vol].
  - destruct H as [H _]. split; [done|]. lia.
  - destruct H as [H _]. split; [done|]. rewrite H in Hlen. simpl in Hlen.
    lia.
Qed.

(** C2 fails on the code: ["a//b"] has an empty element and is decoded,
    with an empty base directory. *)
Lemma getNfsVolFromId_empty_segment :
  getNfsVolFromId (initTestController "/tmp") "a//b"
  = inr {| id := "a//b"; server := "a"; baseDir := ""; subDir := "b" |}.
Proof. reflexivity. Qed.

(** C8: the volumes that [newNFSVolume] and [getNfsVolFromId] return
    satisfy [id_invariant], and encoding a decoded id gives the id back. *)
Theorem nfsVolume_id_invariant (mapLower : string → string)
    (cs : ControllerServer) :
  (∀ name params vol,
     newNFSVolume mapLower cs name params = inr vol → id_invariant vol)
  ∧ (∀ s vol,
       getNfsVolFromId cs s = inr vol →
       id_invariant vol ∧ getVolumeIdFromNfsVol cs vol = s).
Proof.
  split.
  - intros name params vol. unfold newNFSVolume.
    destruct (rangeParams mapLower params "" "") as [e|[s b]]; [done|].
    repeat case_bool_decide; try done.
    intros [= <-]. reflexivity.
  - intros s vol Hdec.
    pose proof (getNfsVolFromId_tokens cs s) as H.
    rewrite Hdec in H. destruct H as [Htok Hid].
    unfold id_invariant. rewrite getVolumeIdFromNfsVol_Join.
    rewrite <- Htok, Hid. by rewrite (Join_Split "/").
Qed.

Lemma nfsVolume_id_invariant_witness :
  id_invariant {| id := "test-server/test-base-dir/test-csi";
                  server := "test-server"; baseDir := "test-base-dir";
                  subDir := "test-csi" |}
  ∧ getVolumeIdFromNfsVol (initTestController "/tmp")
      {| id := "a//b"; server := "a"; baseDir := ""; subDir := "b" |}
    = "a//b".
Proof.
  destruct (nfsVolume_id_invariant keepRunes (initTestController "/tmp"))
    as [Hnew Hdec].
  split.
  - apply (Hnew "test-csi"
             [(paramServer, "test-server"); (paramBaseDir, "test-base-dir")]).
    reflexivity.
  - apply (Hdec "a//b"). reflexivity.
Defined.

(** ** Capability validation *)

Lemma index_bool_supports (d : nfsDriver)
    (m : csi.VolumeCapability_AccessMode_Mode) :
  index_bool (cap d) m = true ↔ supports d m.
Proof.
  unfold index_bool, supports.
  destruct (cap d !! m) as [[]|]; simpl; naive_solver.
Qed.

Lemma validateVolumeCapability_Some (cs : ControllerServer)
    (c : option csi.VolumeCapability) :
  (∃ err, validateVolumeCapability cs c = Some err)
  ↔ rejected_capability (Driver cs) c.
Proof.
  destruct c as [[at_ am]|]; simpl; [|naive_solver].
  unfold validateVolumeCapability, csi.GetMount, csi.GetAccessMode,
    csi.GetAccessType, mount_descriptor; simpl.
  destruct am as [[m]|]; simpl; [|naive_solver].
  pose proof (index_bool_supports (Driver cs) m) as Hs.
  destruct (index_bool (cap (Driver cs)) m); simpl.
  - assert (supports (Driver cs) m) as Hm by by apply Hs.
    destruct at_ as [[blk|[mv|]]|]; simpl;
      try case_bool_decide; naive_solver.
  - assert (¬ supports (Driver cs) m) as Hm by (intros ?%Hs; done).
    split; [|by eauto]. intros _. right; left. by exists {| csi.Mode := m |}.
Qed.

Lemma validateEach_rejects (cs : ControllerServer)
    (caps : list (option csi.VolumeCapability)) :
  (∃ err, validateEach cs caps = Some err)
  ↔ Exists (rejected_capability (Driver cs)) caps.
Proof.
  induction caps as [|c caps IH]; simpl.
  - rewrite Exists_nil. naive_solver.
  - rewrite Exists_cons, <- IH, <- validateVolumeCapability_Some.
    destruct (validateVolumeCapability cs c); naive_solver.
Qed.

(** C6: validation fails exactly on the empty list and on a list with a
    rejected capability; [CreateVolume] then returns [InvalidArgument]
    at once, with no call to a collaborator.  Validation is a function of
    the controller and the list alone. *)
Theorem validateVolumeCapabilities_rejects (mapLower : string → string)
    (cs : ControllerServer) (req : csi.CreateVolumeRequest) :
  let caps := csi.VolumeCapabilities req in
  ((∃ err, validateVolumeCapabilities cs caps = Some err)
   ↔ caps = [] ∨ Exists (rejected_capability (Driver cs)) caps)
  ∧ ((∃ err, validateVolumeCapabilities cs caps = Some err) →
     ∃ m, CreateVolume mapLower cs req
          = Ret (Fail (status.Error codes.InvalidArgument m))).
Proof.
  intros caps. split.
  - unfold validateVolumeCapabilities.
    case_bool_decide as Hlen.
    + apply length_zero_iff_nil in Hlen. naive_solver.
    + rewrite validateEach_rejects.
      assert (caps ≠ []) by (by intros ->). naive_solver.
  - intros [err Herr]. unfold CreateVolume. fold caps. rewrite Herr.
    case_bool_decide; eauto.
Qed.

Lemma validateVolumeCapabilities_rejects_witness :
  ∃ m, CreateVolume keepRunes (initTestController "/tmp")
         {| csi.Name := "test-csi"; csi.CapacityRange_ := None;
            csi.VolumeCapabilities :=
              [Some {| csi.AccessType := None;
                       csi.AccessMode := Some {| csi.Mode := 5 |} |}];
            csi.Parameters := [("server", "test-server");
                               ("base-dir", "test-base-dir")] |}
       = Ret (Fail (status.Error codes.InvalidArgument m)).
Proof.
  apply (validateVolumeCapabilities_rejects keepRunes
           (initTestController "/tmp")).
  eexists. reflexivity.
Defined.

(** C10: a capability with a mount descriptor is judged on its access
    mode alone: neither its [FsType] nor its mount flags are a cause of
    rejection, and it is accepted when its access mode is supported. *)
Theorem validateVolumeCapability_mount (cs : ControllerServer)
    (am : option csi.VolumeCapability_AccessMode)
    (mv : csi.VolumeCapability_MountVolume) :
  validateVolumeCapability cs
    (Some {| csi.AccessType := Some (csi.VolumeCapability_Mount (Some mv));
             csi.AccessMode := am |})
  = match am with
    | None => Some ErrAccessModeNotSet
    | Some a =>
        if index_bool (cap (Driver cs)) (csi.Mode a) then None
        else Some (ErrAccessModeUnsupported (csi.Mode a))
    end.
Proof.
  unfold validateVolumeCapability; simpl.
  destruct am as [a|]; [|done].
  destruct (index_bool _ _); simpl; [|done].
  unfold csi.GetMount; simpl. by case_bool_decide.
Qed.

(** ** The parameters of CreateVolume *)

Section Parameters.

Variable mapLower : string → string.

Lemma recognized_dec (k : string) : Decision (recognized mapLower k).
Proof. unfold recognized, matches. apply _. Qed.

Lemma rangeParams_app (l1 l2 : list (string * string)) (s b : string) :
  rangeParams mapLower (l1 ++ l2) s b
  = match rangeParams mapLower l1 s b with
    | inl err => inl err
    | inr (s', b') => rangeParams mapLower l2 s' b'
    end.
Proof.
  revert s b. induction l1 as [|[k v] l1 IH]; intros s b; simpl; [done|].
  repeat case_bool_decide; by rewrite ?IH.
Qed.

(** The loop stops at the first key that is not recognized. *)
Lemma rangeParams_unrecognized (params : list (string * string))
    (s b : string) :
  Exists (λ kv, ¬ recognized mapLower kv.1) params →
  ∃ k, k ∈ params.*1 ∧ ¬ recognized mapLower k
       ∧ rangeParams mapLower params s b = inl (ErrInvalidParameter k).
Proof.
  revert s b. induction params as [|[k v] params IH]; intros s b Hex.
  { by apply Exists_nil in Hex. }
  simpl. destruct (recognized_dec k) as [Hk|Hk].
  - apply Exists_cons in Hex as [Hex|Hex]; [done|].
    assert (∀ s b, ∃ k0, k0 ∈ (k :: params.*1) ∧ ¬ recognized mapLower k0
              ∧ rangeParams mapLower params s b
                = inl (ErrInvalidParameter k0)) as IH'.
    { intros s' b'. destruct (IH s' b' Hex) as (k0 & ? & ? & ?).
      exists k0. split_and!; [by right|done..]. }
    destruct Hk as [Hk|Hk]; unfold matches in Hk.
    + rewrite bool_decide_true by done. apply IH'.
    + case_bool_decide; [apply IH'|].
      rewrite bool_decide_true by done. apply IH'.
  - exists k. split_and!; [by left|done|].
    unfold recognized, matches in Hk.
    rewrite !bool_decide_false by naive_solver. done.
Qed.

(** With recognized keys only, the loop runs to the end. *)
Lemma rangeParams_recognized (params : list (string * string))
    (s b : string) :
  Forall (λ kv, recognized mapLower kv.1) params →
  ∃ s' b', rangeParams mapLower params s b = inr (s', b').
Proof.
  revert s b. induction params as [|[k v] params IH]; intros s b Hall;
    simpl; [by eauto|].
  apply Forall_cons in Hall as [[Hk|Hk] Hall]; unfold matches in Hk;
    simpl in Hk.
  - rewrite bool_decide_true by done. by apply IH.
  - case_bool_decide; [by apply IH|].
    rewrite bool_decide_true by done. by apply IH.
Qed.

(** A value that no key sets is the one the loop started from. *)
Lemma rangeParams_server_kept (params : list (string * string))
    (s b s' b' : string) :
  Forall (λ kv, ¬ matches mapLower paramServer kv.1) params →
  rangeParams mapLower params s b = inr (s', b') → s' = s.
Proof.
  revert s b. induction params as [|[k v] params IH]; intros s b Hall;
    simpl; [by intros [= <- _]|].
  apply Forall_cons in Hall as [Hk Hall]. unfold matches in Hk; simpl in Hk.
  rewrite bool_decide_false by done.
  case_bool_decide; [by apply IH|done].
Qed.

Lemma rangeParams_baseDir_kept (params : list (string * string))
    (s b s' b' : string) :
  Forall (λ kv, ¬ matches mapLower paramBaseDir kv.1) params →
  rangeParams mapLower params s b = inr (s', b') → b' = b.
Proof.
  revert s b. induction params as [|[k v] params IH]; intros s b Hall;
    simpl; [by intros [= _ <-]|].
  apply Forall_cons in Hall as [Hk Hall]. unfold matches in Hk; simpl in Hk.
  case_bool_decide; [by apply IH|].
  rewrite bool_decide_false by done. done.
Qed.

Lemma newNFSVolume_error (cs : ControllerServer) (name : string)
    (params : list (string * string)) (s b : string) :
  rangeParams mapLower params "" "" = inr (s, b) → s = "" ∨ b = "" →
  ∃ q, newNFSVolume mapLower cs name params = inl (ErrRequiredParameter q).
Proof.
  intros Hr Hsb. unfold newNFSVolume. rewrite Hr.
  case_bool_decide; [by eauto|].
  case_bool_decide; [by eauto|]. naive_solver.
Qed.

(** C5: a key that is neither [server] nor [base-dir] in lower case
    makes [newNFSVolume] fail, on such a key; so does a map without a
    key for [server], or without one for [base-dir]; and when
    [newNFSVolume] fails [CreateVolume] returns [InvalidArgument]. *)
Theorem newNFSVolume_parameters (cs : ControllerServer)
    (req : csi.CreateVolumeRequest) :
  let name := csi.Name req in
  let params := csi.Parameters req in
  (Exists (λ kv, ¬ recognized mapLower kv.1) params →
   ∃ k, k ∈ params.*1 ∧ ¬ recognized mapLower k
        ∧ newNFSVolume mapLower cs name params
          = inl (ErrInvalidParameter k))
  ∧ (Forall (λ kv, ¬ matches mapLower paramServer kv.1) params
     ∨ Forall (λ kv, ¬ matches mapLower paramBaseDir kv.1) params →
     ∃ err, newNFSVolume mapLower cs name params = inl err)
  ∧ ((∃ err, newNFSVolume mapLower cs name params = inl err) →
     ∃ m, CreateVolume mapLower cs req
          = Ret (Fail (status.Error codes.InvalidArgument m))).
Proof.
  intros name params. split_and!.
  - intros Hex.
    destruct (rangeParams_unrecognized params "" "" Hex) as (k & ? & ? & Hr).
    exists k. split_and!; [done..|]. unfold newNFSVolume. by rewrite Hr.
  - intros Hmiss.
    destruct (rangeParams mapLower params "" "") as [err|[s b]] eqn:Hr.
    { exists err. unfold newNFSVolume. by rewrite Hr. }
    destruct (newNFSVolume_error cs name params s b Hr) as [q Hq];
      [|by eauto].
    destruct Hmiss as [Hmiss|Hmiss].
    + left. by eapply rangeParams_server_kept.
    + right. by eapply rangeParams_baseDir_kept.
  - intros [err Herr]. unfold CreateVolume. fold name params.
    rewrite Herr. case_bool_decide; [by eauto|].
    destruct (validateVolumeCapabilities _ _); eauto.
Qed.

(** C9, as the code has it: an empty value under a key for [server] or
    for [base-dir] changes nothing to the result when no other key of
    the map is a key for the same parameter, and this result is an
    error: a required-parameter error when all keys are recognized. *)
Theorem newNFSVolume_empty_value (cs : ControllerServer) (name : string)
    (l1 l2 : list (string * string)) (p k : string) :
  p = paramServer ∨ p = paramBaseDir →
  matches mapLower p k →
  Forall (λ kv, ¬ matches mapLower p kv.1) (l1 ++ l2) →
  newNFSVolume mapLower cs name (l1 ++ (k, "") :: l2)
  = newNFSVolume mapLower cs name (l1 ++ l2)
  ∧ ∃ err, newNFSVolume mapLower cs name (l1 ++ l2) = inl err
      ∧ (Forall (λ kv, recognized mapLower kv.1) (l1 ++ l2) →
         ∃ q, err = ErrRequiredParameter q).
Proof.
  intros Hp Hk Hno.
  assert (rangeParams mapLower (l1 ++ (k, "") :: l2) "" ""
          = rangeParams mapLower (l1 ++ l2) "" "") as Heq.
  { apply Forall_app in Hno as [Hno1 _].
    rewrite !rangeParams_app.
    destruct (rangeParams mapLower l1 "" "") as [err|[s b]] eqn:Hr1; [done|].
    unfold matches in Hk. simpl.
    destruct Hp as [-> | ->].
    - rewrite bool_decide_true by done.
      by rewrite (rangeParams_server_kept l1 "" "" s b Hno1 Hr1).
    - rewrite bool_decide_false by (by rewrite Hk).
      rewrite bool_decide_true by done.
      by rewrite (rangeParams_baseDir_kept l1 "" "" s b Hno1 Hr1). }
  split; [unfold newNFSVolume; by rewrite Heq|].
  destruct (rangeParams mapLower (l1 ++ l2) "" "") as [err|[s b]] eqn:Hr.
  - exists err. split; [unfold newNFSVolume; by rewrite Hr|].
    intros [s' [b' Hok]]%(rangeParams_recognized _ "" ""). congruence.
  - destruct (newNFSVolume_error cs name (l1 ++ l2) s b Hr) as [q Hq].
    { destruct Hp as [-> | ->].
      - left. by eapply rangeParams_server_kept.
      - right. by eapply rangeParams_baseDir_kept. }
    exists (ErrRequiredParameter q). split; [done|]. by eauto.
Qed.

End Parameters.

Lemma newNFSVolume_parameters_witness :
  ∃ m, CreateVolume keepRunes (initTestController "/tmp")
         (testRequest "test-csi"
            [("unknown-parameter", "foo")])
       = Ret (Fail (status.Error codes.InvalidArgument m)).
Proof.
  apply (newNFSVolume_parameters keepRunes (initTestController "/tmp")).
  eexists. reflexivity.
Defined.

(** C9 fails on the code: the key [server] has an empty value, and the
    key [SERVER], visited after it, gives the server. *)
Lemma newNFSVolume_empty_value_overridden :
  newNFSVolume keepRunes (initTestController "/tmp") "vol1"
    [("server", ""); ("SERVER", "s"); ("base-dir", "b")]
  = inr {| id := "s/b/vol1"; server := "s"; baseDir := "b";
           subDir := "vol1" |}.
Proof. reflexivity. Qed.

Lemma newNFSVolume_empty_value_witness :
  newNFSVolume keepRunes (initTestController "/tmp") "vol1"
    ([("base-dir", "b")] ++ ("Server", "") :: [])
  = newNFSVolume keepRunes (initTestController "/tmp") "vol1"
      ([("base-dir", "b")] ++ [])
  ∧ ∃ err, newNFSVolume keepRunes (initTestController "/tmp") "vol1"
             ([("base-dir", "b")] ++ []) = inl err
      ∧ (Forall (λ kv, recognized keepRunes kv.1) ([("base-dir", "b")] ++ [])
         → ∃ q, err = ErrRequiredParameter q).
Proof.
  apply (newNFSVolume_empty_value keepRunes (initTestController "/tmp")
           "vol1" [("base-dir", "b")] [] paramServer "Server").
  - by left.
  - reflexivity.
  - repeat constructor. unfold matches. simpl. by vm_compute.
Defined.

(** ** Paths *)

Lemma clean_step_plain (r : bool) (out : list string) (e : string) :
  plain_element e → filepath.clean_step r out e = e :: out.
Proof.
  intros (? & ? & ? & _). unfold filepath.clean_step.
  by rewrite !bool_decide_false.
Qed.

Lemma fold_clean_step_plain (r : bool) (ps out : list string) :
  Forall plain_element ps →
  fold_left (filepath.clean_step r) ps out = rev ps ++ out.
Proof.
  revert out. induction ps as [|e ps IH]; intros out Hall; simpl; [done|].
  apply Forall_cons in Hall as [He Hall].
  rewrite clean_step_plain, IH by done. by rewrite <- app_assoc.
Qed.

Lemma fold_clean_step_empty (r : bool) (k : nat) (es out : list string) :
  fold_left (filepath.clean_step r) (replicate k "" ++ es) out
  = fold_left (filepath.clean_step r) es out.
Proof. induction k as [|k IH]; simpl; done. Qed.

Lemma plain_element_no_slash (ps : list string) :
  Forall plain_element ps →
  Forall (λ e, strings.Contains e "/" = false) ps.
Proof.
  intros Hall. eapply Forall_impl; [done|]. by intros e (_ & _ & _ & ?).
Qed.

Lemma Join_plain_head (ps : list string) :
  ps ≠ [] → Forall plain_element ps →
  ∃ c t, strings.Join ps "/" = String c t ∧ Ascii.eqb c "/" = false.
Proof.
  destruct ps as [|e ps]; [done|]. intros _ Hall.
  apply Forall_cons in Hall as [(Hne & _ & _ & Hns) _].
  destruct e as [|c e]; [done|].
  unfold no_slash in Hns; simpl in Hns. apply orb_false_iff in Hns as [Hc _].
  destruct ps; simpl; eauto.
Qed.

(** [Clean] leaves a relative clean path as it is. *)
Lemma Clean_relative (ps : list string) :
  ps ≠ [] → Forall plain_element ps →
  filepath.Clean (strings.Join ps "/") = strings.Join ps "/".
Proof.
  intros Hne Hall. unfold filepath.Clean.
  destruct (Join_plain_head ps Hne Hall) as (c & t & Hj & Hc).
  assert (filepath.rooted (strings.Join ps "/") = false) as ->
    by by rewrite Hj.
  rewrite (Split_Join "/") by auto using plain_element_no_slash.
  rewrite fold_clean_step_plain, app_nil_r by done.
  rewrite rev_involutive.
  destruct (rev ps) eqn:Hrev; [|done].
  apply (f_equal (@rev _)) in Hrev. rewrite rev_involutive in Hrev. done.
Qed.

(** [Clean] drops the empty elements after the root. *)
Lemma Clean_rooted (k : nat) (ps : list string) :
  ps ≠ [] → Forall plain_element ps →
  filepath.Clean (String "/" (strings.Join (replicate k "" ++ ps) "/"))
  = String "/" (strings.Join ps "/").
Proof.
  intros Hne Hall. unfold filepath.Clean. simpl filepath.rooted. cbv iota.
  assert (replicate k "" ++ ps ≠ []) as Hne'.
  { intros [_ ?]%app_eq_nil. done. }
  assert (String "/" (strings.Join (replicate k "" ++ ps) "/")
          = strings.Join ("" :: replicate k "" ++ ps) "/") as ->.
  { by rewrite Join_cons. }
  rewrite (Split_Join "/"); [|done|].
  - change ("" :: replicate k "" ++ ps) with (replicate (S k) "" ++ ps).
    rewrite fold_clean_step_empty, fold_clean_step_plain, app_nil_r by done.
    by rewrite rev_involutive.
  - constructor; [done|]. apply Forall_app. split.
    + apply Forall_forall. by intros e [-> _]%elem_of_replicate.
    + by apply plain_element_no_slash.
Qed.

Lemma clean_path_not_empty (w : string) : clean_path w → w ≠ "".
Proof.
  intros (ps & Hne & Hall & [-> | ->]); [|done].
  by destruct (Join_plain_head ps Hne Hall) as (c & t & -> & _).
Qed.

(** Joining a clean path and a plain element appends the element. *)
Lemma Join_clean_path (w n : string) :
  clean_path w → plain_element n →
  filepath.Join [w; n] = w +:+ "/" +:+ n ∧ clean_path (w +:+ "/" +:+ n).
Proof.
  intros Hw Hn. pose proof (clean_path_not_empty w Hw) as Hw0.
  destruct Hw as (ps & Hne & Hall & Hw).
  assert (ps ++ [n] ≠ []) as Hne' by (by destruct ps).
  assert (Forall plain_element (ps ++ [n])) as Hall'.
  { apply Forall_app. split; [done|]. by constructor. }
  simpl filepath.Join. rewrite bool_decide_false by done.
  destruct Hw as [-> | ->].
  - rewrite <- Join_snoc by done. rewrite Clean_relative by done.
    split; [done|]. exists (ps ++ [n]). eauto.
  - rewrite append_String, <- Join_snoc by done.
    pose proof (Clean_rooted 0 (ps ++ [n]) Hne' Hall') as Hc.
    simpl replicate in Hc. rewrite app_nil_l in Hc. rewrite Hc.
    split; [by rewrite Join_snoc|].
    exists (ps ++ [n]). rewrite Join_snoc by done. eauto.
Qed.

(** The share path of a plain base directory and a plain subdirectory. *)
Lemma Join_root_plain (b n : string) :
  plain_element b → plain_element n →
  filepath.Join ["/"; b; n] = "/" +:+ b +:+ "/" +:+ n.
Proof.
  intros Hb Hn.
  change (filepath.Join ["/"; b; n])
    with (filepath.Clean
            (String "/" (strings.Join (replicate 1 "" ++ [b; n]) "/"))).
  rewrite Clean_rooted; [done|done|auto using Forall_cons_2, Forall_nil_2].
Qed.

Lemma Join_root_base (b : string) :
  plain_element b → filepath.Join ["/" +:+ b] = "/" +:+ b.
Proof.
  intros Hb.
  change (filepath.Join ["/" +:+ b])
    with (filepath.Clean
            (String "/" (strings.Join (replicate 0 "" ++ [b]) "/"))).
  rewrite Clean_rooted; [done|done|auto using Forall_cons_2, Forall_nil_2].
Qed.

(** ** CreateVolume and DeleteVolume *)

Lemma run_Ret {W A} (h : Op → W → option error * W) (a : A) (w : W) :
  run h (Ret a) w = (a, w, []).
Proof. reflexivity. Qed.

Lemma run_Do {W A} (h : Op → W → option error * W) (op : Op)
    (k : option error → Prog A) (w w1 : W) (r : option error) :
  h op w = (r, w1) →
  run h (Do op k) w
  = (let '(a, w2, t) := run h (k r) w1 in (a, w2, op :: t)).
Proof. intros Hh. simpl. by rewrite Hh. Qed.

(** C7: with an empty name [CreateVolume] returns [InvalidArgument]
    without calling a collaborator: in every world it leaves the world
    as it was. *)
Theorem CreateVolume_empty_name (mapLower : string → string)
    (cs : ControllerServer) (req : csi.CreateVolumeRequest) :
  csi.Name req = "" →
  CreateVolume mapLower cs req
  = Ret (Fail (status.Error codes.InvalidArgument status.NameMissing))
  ∧ ∀ (W : Type) (h : Op → W → option error * W) (w : W),
      run h (CreateVolume mapLower cs req) w
      = (Fail (status.Error codes.InvalidArgument status.NameMissing),
         w, []).
Proof.
  intros Hname.
  assert (CreateVolume mapLower cs req
          = Ret (Fail (status.Error codes.InvalidArgument
                         status.NameMissing))) as ->.
  { unfold CreateVolume. by rewrite Hname. }
  done.
Qed.

Lemma CreateVolume_empty_name_witness :
  run alwaysOk
    (CreateVolume keepRunes (initTestController "/tmp")
       (testRequest ""
          [("server", "test-server"); ("base-dir", "test-base-dir")])) tt
  = (Fail (status.Error codes.InvalidArgument status.NameMissing), tt, []).
Proof.
  apply (CreateVolume_empty_name keepRunes (initTestController "/tmp")).
  reflexivity.
Defined.

(** C4: [DeleteVolume] returns [InvalidArgument] exactly for the empty
    id; for an id that is not empty and that [getNfsVolFromId] refuses it
    replies with the empty response, calls no collaborator and leaves
    the world as it was. *)
Theorem DeleteVolume_invalid_id (cs : ControllerServer)
    (req : csi.DeleteVolumeRequest) (W : Type)
    (h : Op → W → option error * W) (w : W) :
  ((∃ m, (run h (DeleteVolume cs req) w).1.1
         = Fail (status.Error codes.InvalidArgument m))
   ↔ csi.VolumeId_ req = "")
  ∧ (csi.VolumeId_ req ≠ "" →
     (∃ err, getNfsVolFromId cs (csi.VolumeId_ req) = inl err) →
     run h (DeleteVolume cs req) w
     = (Reply csi.EmptyDeleteVolumeResponse, w, [])).
Proof.
  unfold DeleteVolume. split.
  - case_bool_decide as Hid; [by split; eauto|].
    split; [|done]. intros [m Hm]. exfalso. revert Hm.
    destruct (getNfsVolFromId cs (csi.VolumeId_ req)) as [err|vol];
      [done|].
    unfold internalMount, internalUnmount, defer, call, mbind, Prog_bind.
    simpl.
    destruct (h (NodePublishVolume _) w) as [[e|] w1]; simpl; [done|].
    destruct (h (os_RemoveAll _) w1) as [[e|] w2]; simpl;
      by destruct (h (NodeUnpublishVolume _) w2).
  - intros Hid [err Herr]. rewrite bool_decide_false by done.
    by rewrite Herr.
Qed.

Lemma DeleteVolume_invalid_id_witness :
  run alwaysOk
    (DeleteVolume (initTestController "/tmp")
       {| csi.VolumeId_ := "test-server/test-base-dir/test-csi/foo" |}) tt
  = (Reply csi.EmptyDeleteVolumeResponse, tt, []).
Proof.
  apply (DeleteVolume_invalid_id (initTestController "/tmp")
           {| csi.VolumeId_ := "test-server/test-base-dir/test-csi/foo" |}
           unit alwaysOk tt).
  - done.
  - eexists. reflexivity.
Defined.

Lemma newNFSVolume_two_keys (mapLower : string → string)
    (cs : ControllerServer) (n ks kb s b : string)
    (params : list (string * string)) :
  matches mapLower paramServer ks → matches mapLower paramBaseDir kb →
  params = [(ks, s); (kb, b)] ∨ params = [(kb, b); (ks, s)] →
  s ≠ "" → b ≠ "" →
  newNFSVolume mapLower cs n params
  = inr {| id := s +:+ "/" +:+ b +:+ "/" +:+ n; server := s; baseDir := b;
           subDir := n |}.
Proof.
  unfold matches. intros Hks Hkb Hparams Hs Hb.
  assert (rangeParams mapLower params "" "" = inr (s, b)) as Hr.
  { destruct Hparams as [-> | ->]; simpl; rewrite Hks, Hkb;
      by repeat (case_bool_decide; try done). }
  unfold newNFSVolume. rewrite Hr.
  by rewrite !bool_decide_false.
Qed.

(** C3, as the code has it: for a name [n] and a base directory [b]
    that are plain path elements, with valid capabilities and a map of
    two keys giving the server [s] and [b], when the mount and the mkdir
    succeed [CreateVolume] replies with the volume of id [s/b/n], of
    context [server = s] and [share = /b/n], and of the capacity
    requested; it mounts at [Join(workingMountDir, n)], makes the
    directory [Join(Join(workingMountDir, n), n)] and unmounts; the
    directory is [workingMountDir/n/n] when [workingMountDir] is a clean
    path. *)
Theorem CreateVolume_success (mapLower : string → string)
    (cs : ControllerServer) (req : csi.CreateVolumeRequest)
    (ks kb s b : string) (W : Type) (h : Op → W → option error * W)
    (w w1 w2 : W) :
  let n := csi.Name req in
  let mountPath := filepath.Join [workingMountDir cs; n] in
  let volumePath := filepath.Join [mountPath; n] in
  let mount :=
    NodePublishVolume
      {| csi.TargetPath := mountPath;
         csi.PublishContext := {[ "server" := s; "share" := "/" +:+ b ]} |} in
  let unmount := NodeUnpublishVolume {| csi.TargetPath_ := mountPath |} in
  plain_element n → plain_element b → s ≠ "" →
  validateVolumeCapabilities cs (csi.VolumeCapabilities req) = None →
  matches mapLower paramServer ks → matches mapLower paramBaseDir kb →
  csi.Parameters req = [(ks, s); (kb, b)]
  ∨ csi.Parameters req = [(kb, b); (ks, s)] →
  h mount w = (None, w1) →
  h (os_Mkdir volumePath 493) w1 = (None, w2) →
  run h (CreateVolume mapLower cs req) w
  = (Reply
       {| csi.Volume_ :=
            Some {| csi.CapacityBytes :=
                      csi.GetRequiredBytes (csi.CapacityRange_ req);
                    csi.VolumeId := s +:+ "/" +:+ b +:+ "/" +:+ n;
                    csi.VolumeContext :=
                      {[ "server" := s;
                         "share" := "/" +:+ b +:+ "/" +:+ n ]} |} |},
     (h unmount w2).2,
     [mount; os_Mkdir volumePath 493; unmount])
  ∧ (clean_path (workingMountDir cs) →
     volumePath = workingMountDir cs +:+ "/" +:+ n +:+ "/" +:+ n).
Proof.
  intros n mountPath volumePath mount unmount Hn Hb Hs Hcaps Hks Hkb
    Hparams Hmount Hmkdir.
  split.
  - unfold CreateVolume. fold n.
    rewrite bool_decide_false
      by (destruct Hn as [Hn0 _]; by destruct n).
    rewrite Hcaps.
    rewrite (newNFSVolume_two_keys mapLower cs n ks kb s b
               (csi.Parameters req)); [|done..|by destruct Hb].
    unfold internalMount, internalUnmount, defer, call, mbind, Prog_bind,
      getInternalVolumePath, getInternalMountPath, nfsVolToCSI,
      getVolumeSharePath, attrServer, attrShare.
    cbn [bind baseDir subDir server id].
    rewrite Join_root_base, Join_root_plain by done.
    fold mountPath. fold volumePath. fold mount.
    rewrite (run_Do h mount _ w w1 None Hmount).
    rewrite (run_Do h (os_Mkdir volumePath 493) _ w1 w2 None Hmkdir).
    simpl. fold unmount. by destruct (h unmount w2).
  - intros Hw. unfold volumePath, mountPath.
    destruct (Join_clean_path (workingMountDir cs) n Hw Hn) as [-> Hw'].
    destruct (Join_clean_path _ n Hw' Hn) as [-> _].
    by rewrite !append_assoc.
Qed.

Lemma CreateVolume_success_witness :
  run alwaysOk
    (CreateVolume keepRunes (initTestController "/tmp")
       (testRequest "test-csi"
          [("server", "test-server"); ("base-dir", "test-base-dir")])) tt
  = (Reply
       {| csi.Volume_ :=
            Some {| csi.CapacityBytes := 0;
                    csi.VolumeId := "test-server/test-base-dir/test-csi";
                    csi.VolumeContext :=
                      {[ "server" := "test-server";
                         "share" := "/test-base-dir/test-csi" ]} |} |},
     tt,
     [NodePublishVolume
        {| csi.TargetPath := "/tmp/test-csi";
           csi.PublishContext :=
             {[ "server" := "test-server";
                "share" := "/test-base-dir" ]} |};
      os_Mkdir "/tmp/test-csi/test-csi" 493;
      NodeUnpublishVolume {| csi.TargetPath_ := "/tmp/test-csi" |}])
  ∧ filepath.Join [filepath.Join ["/tmp"; "test-csi"]; "test-csi"]
    = "/tmp/test-csi/test-csi".
Proof.
  destruct (CreateVolume_success keepRunes (initTestController "/tmp")
              (testRequest "test-csi"
                 [("server", "test-server"); ("base-dir", "test-base-dir")])
              "server" "base-dir" "test-server" "test-base-dir"
              unit alwaysOk tt tt tt) as [Hrun Hpath].
  - by repeat split.
  - by repeat split.
  - done.
  - reflexivity.
  - reflexivity.
  - reflexivity.
  - by left.
  - reflexivity.
  - reflexivity.
  - split; [exact Hrun|]. apply Hpath.
    exists ["tmp"]. split; [done|]. split; [|by right].
    apply Forall_cons_2; [by repeat split|apply Forall_nil_2].
Defined.

(** C3 fails on the code: with the base directory [..] the share of the
    volume is [/vol1], not [/../vol1]. *)
Lemma CreateVolume_share_cleaned :
  (run alwaysOk
     (CreateVolume keepRunes (initTestController "/tmp")
        (testRequest "vol1"
           [("server", "s"); ("base-dir", "..")]))
     tt).1.1
  = Reply
      {| csi.Volume_ :=
           Some {| csi.CapacityBytes := 0;
                   csi.VolumeId := "s/../vol1";
                   csi.VolumeContext :=
                     {[ "server" := "s"; "share" := "/vol1" ]} |} |}.
Proof. reflexivity. Qed.

(** ** The driver and the tests *)

(** The driver of [NewNFSdriver] supports the five access modes from
    [SINGLE_NODE_WRITER] to [MULTI_NODE_MULTI_WRITER] and no other. *)
Lemma NewNFSdriver_supports (nodeID endpoint : string)
    (m : csi.VolumeCapability_AccessMode_Mode) :
  supports (NewNFSdriver nodeID endpoint) m ↔ 1 ≤ m ≤ 5.
Proof.
  unfold supports, NewNFSdriver, AddVolumeCapabilityAccessModes. simpl.
  rewrite !lookup_insert, lookup_empty.
  unfold csi.VolumeCapability_AccessMode_SINGLE_NODE_WRITER,
    csi.VolumeCapability_AccessMode_SINGLE_NODE_READER_ONLY,
    csi.VolumeCapability_AccessMode_MULTI_NODE_READER_ONLY,
    csi.VolumeCapability_AccessMode_MULTI_NODE_SINGLE_WRITER,
    csi.VolumeCapability_AccessMode_MULTI_NODE_MULTI_WRITER.
  repeat case_decide; split; (done || lia).
Qed.

Example Split_ex1 : strings.Split "s/b/vol1" "/" = ["s"; "b"; "vol1"].
Proof. reflexivity. Qed.
Example Split_ex2 : strings.Split "" "/" = [""].
Proof. reflexivity. Qed.
Example Split_ex3 : strings.Split "a//b" "/" = ["a"; ""; "b"].
Proof. reflexivity. Qed.
(** The cases of [TestClean] in Go's [path/filepath]. *)
Example Clean_go_tests :
  Forall (λ t, filepath.Clean t.1 = t.2)
    [("abc", "abc"); ("abc/def", "abc/def"); ("a/b/c", "a/b/c");
     (".", "."); ("..", ".."); ("../..", "../.."); ("../../abc", "../../abc");
     ("/abc", "/abc"); ("/", "/"); ("", "."); ("abc/", "abc");
     ("abc/def/", "abc/def"); ("a/b/c/", "a/b/c"); ("./", ".");
     ("../", ".."); ("../../", "../.."); ("/abc/", "/abc");
     ("abc//def//ghi", "abc/def/ghi"); ("//abc", "/abc");
     ("///abc", "/abc"); ("//abc//", "/abc"); ("abc//", "abc");
     ("abc/./def", "abc/def"); ("/./abc/def", "/abc/def"); ("abc/.", "abc");
     ("abc/def/ghi/../jkl", "abc/def/jkl");
     ("abc/def/../ghi/../jkl", "abc/jkl"); ("abc/def/..", "abc");
     ("abc/def/../..", "."); ("/abc/def/../..", "/");
     ("abc/def/../../..", ".."); ("/abc/def/../../..", "/");
     ("abc/def/../../../ghi/jkl/../../../mno", "../../mno");
     ("/../abc", "/abc"); ("abc/./../def", "def"); ("abc//./../def", "def");
     ("abc/../../././../def", "../../def")].
Proof. repeat (apply Forall_cons_2; [reflexivity|]). apply Forall_nil_2. Qed.
Example Clean_ex1 : filepath.Clean "//b/vol1" = "/b/vol1".
Proof. reflexivity. Qed.
Example Clean_ex2 : filepath.Clean "a/../../b/./c//" = "../b/c".
Proof. reflexivity. Qed.
Example Clean_ex3 : filepath.Clean "/../a/b/../.." = "/".
Proof. reflexivity. Qed.
Example Clean_ex4 : filepath.Clean "" = ".".
Proof. reflexivity. Qed.
Example Join_ex1 : filepath.Join ["/"; "b"; ".."] = "/".
Proof. reflexivity. Qed.
Example Join_ex2 : filepath.Join [""; "vol1"; "vol1"] = "vol1/vol1".
Proof. reflexivity. Qed.
Example ToLower_ex1 : strings.ToLower keepRunes "Base-DIR" = "base-dir".
Proof. reflexivity. Qed.
Example ToLower_ex2 : strings.ToLower keepRunes "SERVER" = paramServer.
Proof. reflexivity. Qed.

(** TestGetNfsVolFromId *)
Example TestGetNfsVolFromId_valid :
  getNfsVolFromId (initTestController "/tmp")
    "test-server/test-base-dir/test-csi"
  = inr {| id := "test-server/test-base-dir/test-csi";
           server := "test-server"; baseDir := "test-base-dir";
           subDir := "test-csi" |}.
Proof. reflexivity. Qed.
Example TestGetNfsVolFromId_empty :
  getNfsVolFromId (initTestController "/tmp") "" = inl (ErrIdFormat "" 1).
Proof. reflexivity. Qed.
Example TestGetNfsVolFromId_not_enough :
  getNfsVolFromId (initTestController "/tmp") "test-server/test-base-dir"
  = inl (ErrIdFormat "test-server/test-base-dir" 2).
Proof. reflexivity. Qed.

(** TestGenerateNewNFSVolume *)
Example TestGenerateNewNFSVolume_missing_baseDir :
  newNFSVolume keepRunes (initTestController "/tmp") "test-csi"
    [(paramServer, "test-server")]
  = inl (ErrRequiredParameter paramBaseDir).
Proof. reflexivity. Qed.
Example TestGenerateNewNFSVolume_mixed_case :
  newNFSVolume keepRunes (initTestController "/tmp") "test-csi"
    [("Base-Dir", "test-base-dir"); ("SERVER", "test-server")]
  = inr {| id := "test-server/test-base-dir/test-csi";
           server := "test-server"; baseDir := "test-base-dir";
           subDir := "test-csi" |}.
Proof. reflexivity. Qed.

(** TestDeleteVolume, valid *)
Example TestDeleteVolume_valid :
  run alwaysOk
    (DeleteVolume (initTestController "/tmp")
       {| csi.VolumeId_ := "test-server/test-base-dir/test-csi" |}) tt
  = (Reply csi.EmptyDeleteVolumeResponse, tt,
     [NodePublishVolume
        {| csi.TargetPath := "/tmp/test-csi";
           csi.PublishContext :=
             {[ "server" := "test-server";
                "share" := "/test-base-dir" ]} |};
      os_RemoveAll "/tmp/test-csi/test-csi";
      NodeUnpublishVolume {| csi.TargetPath_ := "/tmp/test-csi" |}]).
Proof. reflexivity. Qed.


(** * Further properties of the controller *)

(** ** The runs of CreateVolume *)

Lemma internalMount_mountOp (cs : ControllerServer) (vol : nfsVolume) :
  internalMount cs vol = call (mountOp cs vol).
Proof. reflexivity. Qed.

(** The run of [CreateVolume] once the request is validated, by the
    results of the collaborators. *)
Lemma CreateVolume_run (mapLower : string → string) (cs : ControllerServer)
    (req : csi.CreateVolumeRequest) (vol : nfsVolume) (W : Type)
    (h : Op → W → option error * W) (w : W) :
  csi.Name req ≠ "" →
  validateVolumeCapabilities cs (csi.VolumeCapabilities req) = None →
  newNFSVolume mapLower cs (csi.Name req) (csi.Parameters req) = inr vol →
  run h (CreateVolume mapLower cs req) w
  = match h (mountOp cs vol) w with
    | (Some e, w1) =>
        (Fail (status.Error codes.Internal (status.MountFailed e)), w1,
         [mountOp cs vol])
    | (None, w1) =>
        let mkdir := os_Mkdir (getInternalVolumePath cs vol) 493 in
        (match (h mkdir w1).1 with
         | Some e => Fail (status.Error codes.Internal (status.MkdirFailed e))
         | None =>
             Reply {| csi.Volume_ :=
                        Some (nfsVolToCSI cs vol
                                (csi.GetRequiredBytes
                                   (csi.CapacityRange_ req))) |}
         end,
         (h (unmountOp cs vol) (h mkdir w1).2).2,
         [mountOp cs vol; mkdir; unmountOp cs vol])
    end.
Proof.
  intros Hname Hcaps Hvol. unfold CreateVolume.
  rewrite bool_decide_false by (by destruct (csi.Name req)).
  rewrite Hcaps, Hvol.
  unfold internalMount, internalUnmount, defer, call, mbind, Prog_bind.
  fold (mountOp cs vol). fold (unmountOp cs vol).
  cbn [bind run].
  destruct (h (mountOp cs vol) w) as [[e|] w1]; [done|].
  cbn [bind run].
  destruct (h (os_Mkdir _ _) w1) as [[e|] w2]; cbn [bind run fst snd];
    by destruct (h (unmountOp cs vol) w2).
Qed.

(** The three ways in which a request is refused before any call. *)
Lemma CreateVolume_refused (mapLower : string → string)
    (cs : ControllerServer) (req : csi.CreateVolumeRequest) :
  csi.Name req = ""
  ∨ (∃ e, validateVolumeCapabilities cs (csi.VolumeCapabilities req)
          = Some e)
  ∨ (∃ e, newNFSVolume mapLower cs (csi.Name req) (csi.Parameters req)
          = inl e) →
  ∃ m, CreateVolume mapLower cs req
       = Ret (Fail (status.Error codes.InvalidArgument m)).
Proof.
  unfold CreateVolume. intros Href.
  case_bool_decide as Hlen; [by eauto|].
  destruct Href as [Hn|[[e He]|[e He]]].
  - by rewrite Hn in Hlen.
  - rewrite He. by eauto.
  - destruct (validateVolumeCapabilities _ _); [by eauto|].
    rewrite He. by eauto.
Qed.

Lemma CreateVolume_cases (mapLower : string → string)
    (cs : ControllerServer) (req : csi.CreateVolumeRequest) :
  (csi.Name req = ""
   ∨ (∃ e, validateVolumeCapabilities cs (csi.VolumeCapabilities req)
           = Some e)
   ∨ (∃ e, newNFSVolume mapLower cs (csi.Name req) (csi.Parameters req)
           = inl e))
  ∨ (csi.Name req ≠ ""
     ∧ validateVolumeCapabilities cs (csi.VolumeCapabilities req) = None
     ∧ ∃ vol, newNFSVolume mapLower cs (csi.Name req) (csi.Parameters req)
              = inr vol).
Proof.
  destruct (decide (csi.Name req = "")) as [?|Hn]; [by eauto|].
  destruct (validateVolumeCapabilities cs _) as [e|]; [by eauto 6|].
  destruct (newNFSVolume mapLower cs _ _) as [e|vol]; [by eauto 6|].
  right. eauto.
Qed.

(** X1: [CreateVolume] returns [InvalidArgument] exactly when the name
    is empty, the capabilities are refused or the parameters are
    refused; it has then called no collaborator. *)
Theorem CreateVolume_InvalidArgument (mapLower : string → string)
    (cs : ControllerServer) (req : csi.CreateVolumeRequest) (W : Type)
    (h : Op → W → option error * W) (w : W) :
  ((∃ m, (run h (CreateVolume mapLower cs req) w).1.1
         = Fail (status.Error codes.InvalidArgument m))
   ↔ (csi.Name req = ""
      ∨ (∃ e, validateVolumeCapabilities cs (csi.VolumeCapabilities req)
              = Some e)
      ∨ (∃ e, newNFSVolume mapLower cs (csi.Name req) (csi.Parameters req)
              = inl e)))
  ∧ ((∃ m, (run h (CreateVolume mapLower cs req) w).1.1
           = Fail (status.Error codes.InvalidArgument m))
     → (run h (CreateVolume mapLower cs req) w).1.2 = w
       ∧ (run h (CreateVolume mapLower cs req) w).2 = []).
Proof.
  destruct (CreateVolume_cases mapLower cs req)
    as [Href|(Hn & Hcaps & vol & Hvol)].
  - destruct (CreateVolume_refused mapLower cs req Href) as [m ->].
    simpl. split; [split; eauto|done].
  - pose proof (CreateVolume_run mapLower cs req vol W h w Hn Hcaps Hvol)
      as Hrun.
    assert (¬ ∃ m, (run h (CreateVolume mapLower cs req) w).1.1
                   = Fail (status.Error codes.InvalidArgument m)) as Hno.
    { rewrite Hrun. intros [m Hm].
      destruct (h (mountOp cs vol) w) as [[e|] w1]; simpl in Hm; [done|].
      by destruct ((h _ w1).1). }
    split; [|done]. split; [done|].
    intros [?|[[e He]|[e He]]]; congruence.
Qed.

(** X2: when the mount fails, [CreateVolume] returns [Internal] with the
    error of the mount; it makes no directory and does not unmount. *)
Theorem CreateVolume_mount_failure (mapLower : string → string)
    (cs : ControllerServer) (req : csi.CreateVolumeRequest)
    (vol : nfsVolume) (W : Type) (h : Op → W → option error * W)
    (w w1 : W) (e : error) :
  csi.Name req ≠ "" →
  validateVolumeCapabilities cs (csi.VolumeCapabilities req) = None →
  newNFSVolume mapLower cs (csi.Name req) (csi.Parameters req) = inr vol →
  h (mountOp cs vol) w = (Some e, w1) →
  run h (CreateVolume mapLower cs req) w
  = (Fail (status.Error codes.Internal (status.MountFailed e)), w1,
     [mountOp cs vol]).
Proof.
  intros Hn Hcaps Hvol Hm.
  rewrite (CreateVolume_run mapLower cs req vol W h w Hn Hcaps Hvol).
  by rewrite Hm.
Qed.

Lemma CreateVolume_mount_failure_witness :
  run (refusing isNodePublishVolume)
    (CreateVolume keepRunes (initTestController "/tmp")
       (testRequest "test-csi"
          [("server", "test-server"); ("base-dir", "test-base-dir")])) tt
  = (Fail (status.Error codes.Internal
             (status.MountFailed (Foreign "refused"))), tt,
     [NodePublishVolume
        {| csi.TargetPath := "/tmp/test-csi";
           csi.PublishContext :=
             {[ "server" := "test-server";
                "share" := "/test-base-dir" ]} |}]).
Proof.
  apply (CreateVolume_mount_failure keepRunes (initTestController "/tmp")
           (testRequest "test-csi"
              [("server", "test-server"); ("base-dir", "test-base-dir")])
           {| id := "test-server/test-base-dir/test-csi";
              server := "test-server"; baseDir := "test-base-dir";
              subDir := "test-csi" |}
           unit (refusing isNodePublishVolume) tt tt (Foreign "refused"));
    [done|reflexivity..].
Defined.

(** X3: when the mount succeeds and the mkdir fails, [CreateVolume]
    returns [Internal] with the error of the mkdir, after unmounting;
    what the unmount returns does not change the result. *)
Theorem CreateVolume_mkdir_failure (mapLower : string → string)
    (cs : ControllerServer) (req : csi.CreateVolumeRequest)
    (vol : nfsVolume) (W : Type) (h : Op → W → option error * W)
    (w w1 w2 : W) (e : error) :
  csi.Name req ≠ "" →
  validateVolumeCapabilities cs (csi.VolumeCapabilities req) = None →
  newNFSVolume mapLower cs (csi.Name req) (csi.Parameters req) = inr vol →
  h (mountOp cs vol) w = (None, w1) →
  h (os_Mkdir (getInternalVolumePath cs vol) 493) w1 = (Some e, w2) →
  run h (CreateVolume mapLower cs req) w
  = (Fail (status.Error codes.Internal (status.MkdirFailed e)),
     (h (unmountOp cs vol) w2).2,
     [mountOp cs vol; os_Mkdir (getInternalVolumePath cs vol) 493;
      unmountOp cs vol]).
Proof.
  intros Hn Hcaps Hvol Hm Hk.
  rewrite (CreateVolume_run mapLower cs req vol W h w Hn Hcaps Hvol).
  by rewrite Hm; simpl; rewrite Hk.
Qed.

Lemma CreateVolume_mkdir_failure_witness :
  run (refusing isMkdir)
    (CreateVolume keepRunes (initTestController "/tmp")
       (testRequest "test-csi"
          [("server", "test-server"); ("base-dir", "test-base-dir")])) tt
  = (Fail (status.Error codes.Internal
             (status.MkdirFailed (Foreign "refused"))), tt,
     [NodePublishVolume
        {| csi.TargetPath := "/tmp/test-csi";
           csi.PublishContext :=
             {[ "server" := "test-server";
                "share" := "/test-base-dir" ]} |};
      os_Mkdir "/tmp/test-csi/test-csi" 493;
      NodeUnpublishVolume {| csi.TargetPath_ := "/tmp/test-csi" |}]).
Proof.
  apply (CreateVolume_mkdir_failure keepRunes (initTestController "/tmp")
           (testRequest "test-csi"
              [("server", "test-server"); ("base-dir", "test-base-dir")])
           {| id := "test-server/test-base-dir/test-csi";
              server := "test-server"; baseDir := "test-base-dir";
              subDir := "test-csi" |}
           unit (refusing isMkdir) tt tt tt (Foreign "refused"));
    [done|reflexivity..].
Defined.

(** X4: the calls of [CreateVolume], in every world: none; or a mount
    that failed and nothing after it; or a mount that succeeded, one
    mkdir and the unmount of the path that was mounted. *)
Theorem CreateVolume_calls (mapLower : string → string)
    (cs : ControllerServer) (req : csi.CreateVolumeRequest) (W : Type)
    (h : Op → W → option error * W) (w : W) :
  let t := (run h (CreateVolume mapLower cs req) w).2 in
  t = []
  ∨ (∃ m, t = [NodePublishVolume m]
          ∧ (h (NodePublishVolume m) w).1 ≠ None)
  ∨ (∃ m path,
       t = [NodePublishVolume m; os_Mkdir path 493;
            NodeUnpublishVolume {| csi.TargetPath_ := csi.TargetPath m |}]
       ∧ (h (NodePublishVolume m) w).1 = None).
Proof.
  intros t. subst t.
  destruct (CreateVolume_cases mapLower cs req)
    as [Href|(Hn & Hcaps & vol & Hvol)].
  - destruct (CreateVolume_refused mapLower cs req Href) as [m ->].
    by left.
  - rewrite (CreateVolume_run mapLower cs req vol W h w Hn Hcaps Hvol).
    assert (∃ m, mountOp cs vol = NodePublishVolume m
                 ∧ unmountOp cs vol
                   = NodeUnpublishVolume
                       {| csi.TargetPath_ := csi.TargetPath m |})
      as (m & -> & ->) by (eexists; split; reflexivity).
    right. destruct (h (NodePublishVolume m) w) as [[e|] w1] eqn:Hm.
    + left. exists m. by rewrite Hm.
    + right. exists m, (getInternalVolumePath cs vol). by rewrite Hm.
Qed.



(** ** The runs of DeleteVolume *)

(** The run of [DeleteVolume] on an id that is decoded, by the results
    of the collaborators. *)
Lemma DeleteVolume_run (cs : ControllerServer)
    (req : csi.DeleteVolumeRequest) (vol : nfsVolume) (W : Type)
    (h : Op → W → option error * W) (w : W) :
  getNfsVolFromId cs (csi.VolumeId_ req) = inr vol →
  run h (DeleteVolume cs req) w
  = match h (mountOp cs vol) w with
    | (Some e, w1) =>
        (Fail (status.Error codes.Internal (status.MountFailed e)), w1,
         [mountOp cs vol])
    | (None, w1) =>
        let remove := os_RemoveAll (getInternalVolumePath cs vol) in
        (match (h remove w1).1 with
         | Some e =>
             Fail (status.Error codes.Internal (status.RemoveFailed e))
         | None => Reply csi.EmptyDeleteVolumeResponse
         end,
         (h (unmountOp cs vol) (h remove w1).2).2,
         [mountOp cs vol; remove; unmountOp cs vol])
    end.
Proof.
  intros Hvol. unfold DeleteVolume.
  rewrite bool_decide_false by (by intros Hid; rewrite Hid in Hvol).
  rewrite Hvol.
  unfold internalMount, internalUnmount, defer, call, mbind, Prog_bind.
  fold (mountOp cs vol). fold (unmountOp cs vol).
  cbn [bind run].
  destruct (h (mountOp cs vol) w) as [[e|] w1]; [done|].
  cbn [bind run].
  destruct (h (os_RemoveAll _) w1) as [[e|] w2]; cbn [bind run fst snd];
    by destruct (h (unmountOp cs vol) w2).
Qed.

(** X6: on an id of three elements, when the mount and the removal
    succeed, [DeleteVolume] mounts the share of the second element at
    the path of the third, removes the directory of the third under it,
    unmounts and replies; what the unmount returns does not matter. *)
Theorem DeleteVolume_removes (cs : ControllerServer)
    (req : csi.DeleteVolumeRequest) (s b d : string) (W : Type)
    (h : Op → W → option error * W) (w w1 w2 : W) :
  let vol := {| id := csi.VolumeId_ req; server := s; baseDir := b;
                subDir := d |} in
  strings.Split (csi.VolumeId_ req) "/" = [s; b; d] →
  h (mountOp cs vol) w = (None, w1) →
  h (os_RemoveAll (getInternalVolumePath cs vol)) w1 = (None, w2) →
  run h (DeleteVolume cs req) w
  = (Reply csi.EmptyDeleteVolumeResponse,
     (h (unmountOp cs vol) w2).2,
     [mountOp cs vol; os_RemoveAll (getInternalVolumePath cs vol);
      unmountOp cs vol]).
Proof.
  intros vol Htok Hm Hr.
  assert (getNfsVolFromId cs (csi.VolumeId_ req) = inr vol) as Hvol.
  { unfold getNfsVolFromId. by rewrite Htok. }
  rewrite (DeleteVolume_run cs req vol W h w Hvol).
  by rewrite Hm; simpl; rewrite Hr.
Qed.

Lemma DeleteVolume_removes_witness :
  run alwaysOk
    (DeleteVolume (initTestController "/tmp")
       {| csi.VolumeId_ := "test-server/test-base-dir/test-csi" |}) tt
  = (Reply csi.EmptyDeleteVolumeResponse, tt,
     [NodePublishVolume
        {| csi.TargetPath := "/tmp/test-csi";
           csi.PublishContext :=
             {[ "server" := "test-server";
                "share" := "/test-base-dir" ]} |};
      os_RemoveAll "/tmp/test-csi/test-csi";
      NodeUnpublishVolume {| csi.TargetPath_ := "/tmp/test-csi" |}]).
Proof.
  apply (DeleteVolume_removes (initTestController "/tmp")
           {| csi.VolumeId_ := "test-server/test-base-dir/test-csi" |}
           "test-server" "test-base-dir" "test-csi"
           unit alwaysOk tt tt tt); reflexivity.
Defined.



(** X8: the calls of [DeleteVolume], in every world: none; or a mount
    that failed and nothing after it; or a mount that succeeded, one
    removal and the unmount of the path that was mounted. *)
Theorem DeleteVolume_calls (cs : ControllerServer)
    (req : csi.DeleteVolumeRequest) (W : Type)
    (h : Op → W → option error * W) (w : W) :
  let t := (run h (DeleteVolume cs req) w).2 in
  t = []
  ∨ (∃ m, t = [NodePublishVolume m]
          ∧ (h (NodePublishVolume m) w).1 ≠ None)
  ∨ (∃ m path,
       t = [NodePublishVolume m; os_RemoveAll path;
            NodeUnpublishVolume {| csi.TargetPath_ := csi.TargetPath m |}]
       ∧ (h (NodePublishVolume m) w).1 = None).
Proof.
  intros t. subst t.
  destruct (getNfsVolFromId cs (csi.VolumeId_ req)) as [err|vol] eqn:Hvol.
  { left. unfold DeleteVolume. rewrite Hvol. by case_bool_decide. }
  rewrite (DeleteVolume_run cs req vol W h w Hvol).
  assert (∃ m, mountOp cs vol = NodePublishVolume m
               ∧ unmountOp cs vol
                 = NodeUnpublishVolume
                     {| csi.TargetPath_ := csi.TargetPath m |})
    as (m & -> & ->) by (eexists; split; reflexivity).
  right. destruct (h (NodePublishVolume m) w) as [[e|] w1] eqn:Hm.
  - left. exists m. by rewrite Hm.
  - right. exists m, (getInternalVolumePath cs vol). by rewrite Hm.
Qed.

(** ** Ids that are decoded, and ids that are not *)

Lemma Count_append (s t : string) (c : ascii) :
  strings.Count (s +:+ t) c = (strings.Count s c + strings.Count t c)%nat.
Proof.
  induction s as [|a s IH]; [done|].
  rewrite append_String. simpl. rewrite IH. lia.
Qed.

Lemma Contains_Count (s : string) (c : ascii) :
  strings.Contains s c = false ↔ strings.Count s c = 0%nat.
Proof.
  induction s as [|a s IH]; simpl; [done|].
  destruct (Ascii.eqb a c); simpl; [split; [done|lia]|done].
Qed.

Lemma Count_getVolumeIdFromNfsVol (cs : ControllerServer) (vol : nfsVolume) :
  strings.Count (getVolumeIdFromNfsVol cs vol) "/"
  = (2 + strings.Count (server vol) "/" + strings.Count (baseDir vol) "/"
     + strings.Count (subDir vol) "/")%nat.
Proof.
  rewrite getVolumeIdFromNfsVol_Join. unfold strings.Join.
  rewrite !Count_append. simpl. lia.
Qed.

(** What decoding the id of a volume gives, by the [/] in its fields. *)
Lemma decode_encode_cases (cs : ControllerServer) (vol : nfsVolume) :
  let slashes := (strings.Count (server vol) "/"
                  + strings.Count (baseDir vol) "/"
                  + strings.Count (subDir vol) "/")%nat in
  match getNfsVolFromId cs (getVolumeIdFromNfsVol cs vol) with
  | inr vol' =>
      no_slash (server vol) ∧ no_slash (baseDir vol) ∧ no_slash (subDir vol)
      ∧ server vol' = server vol ∧ baseDir vol' = baseDir vol
      ∧ subDir vol' = subDir vol
  | inl err =>
      slashes ≠ 0%nat
      ∧ err = ErrIdFormat (getVolumeIdFromNfsVol cs vol) (3 + slashes)
  end.
Proof.
  intros slashes.
  pose proof (getNfsVolFromId_tokens cs (getVolumeIdFromNfsVol cs vol)) as H.
  pose proof (length_Split "/" (getVolumeIdFromNfsVol cs vol)) as Hlen.
  rewrite Count_getVolumeIdFromNfsVol in Hlen. fold slashes in Hlen.
  destruct (getNfsVolFromId cs (getVolumeIdFromNfsVol cs vol))
    as [err|vol'] eqn:Hdec.
  - destruct H as [Hne ->]. split; [lia|]. f_equal. lia.
  - destruct H as [Htok _]. rewrite Htok in Hlen. simpl in Hlen.
    assert (strings.Count (server vol) "/" = 0
            ∧ strings.Count (baseDir vol) "/" = 0
            ∧ strings.Count (subDir vol) "/" = 0)%nat
      as (Hs & Hb & Hd) by (unfold slashes in Hlen; lia).
    apply Contains_Count in Hs, Hb, Hd.
    rewrite (getNfsVolFromId_encode cs vol Hs Hb Hd) in Hdec.
    injection Hdec as <-. done.
Qed.

(** X9: the id of a volume is decoded exactly when none of its three
    fields holds a [/], and then to the same fields; otherwise
    [getNfsVolFromId] counts three elements and one more for each [/] in
    the fields, and fails. *)
Theorem getNfsVolFromId_getVolumeIdFromNfsVol (cs : ControllerServer)
    (vol : nfsVolume) :
  let slashes := (strings.Count (server vol) "/"
                  + strings.Count (baseDir vol) "/"
                  + strings.Count (subDir vol) "/")%nat in
  match getNfsVolFromId cs (getVolumeIdFromNfsVol cs vol) with
  | inr vol' =>
      no_slash (server vol) ∧ no_slash (baseDir vol) ∧ no_slash (subDir vol)
      ∧ server vol' = server vol ∧ baseDir vol' = baseDir vol
      ∧ subDir vol' = subDir vol
  | inl err =>
      slashes ≠ 0%nat
      ∧ err = ErrIdFormat (getVolumeIdFromNfsVol cs vol) (3 + slashes)
  end.
Proof. exact (decode_encode_cases cs vol). Qed.

(** X10: for a server, a base directory and a name without [/], the id
    that [CreateVolume] returns is decoded by [DeleteVolume] to the same
    volume: it mounts the same share at the same path and removes the
    directory that [CreateVolume] made. *)
Theorem DeleteVolume_of_created (mapLower : string → string)
    (cs : ControllerServer) (req : csi.CreateVolumeRequest)
    (vol : nfsVolume) (W : Type) (h : Op → W → option error * W)
    (w w1 w2 : W) :
  newNFSVolume mapLower cs (csi.Name req) (csi.Parameters req) = inr vol →
  no_slash (server vol) → no_slash (baseDir vol) → no_slash (csi.Name req) →
  h (mountOp cs vol) w = (None, w1) →
  h (os_RemoveAll (getInternalVolumePath cs vol)) w1 = (None, w2) →
  getNfsVolFromId cs (id vol) = inr vol
  ∧ run h (DeleteVolume cs {| csi.VolumeId_ := id vol |}) w
    = (Reply csi.EmptyDeleteVolumeResponse,
       (h (unmountOp cs vol) w2).2,
       [mountOp cs vol; os_RemoveAll (getInternalVolumePath cs vol);
        unmountOp cs vol]).
Proof.
  intros Hvol Hs Hb Hn Hm Hr.
  assert (getNfsVolFromId cs (id vol) = inr vol) as Hdec.
  { revert Hvol Hs Hb. unfold newNFSVolume.
    destruct (rangeParams mapLower _ "" "") as [e|[s b]]; [done|].
    repeat case_bool_decide; try done.
    intros [= <-] Hs Hb.
    by apply (getNfsVolFromId_encode cs
                {| id := ""; server := s; baseDir := b;
                   subDir := csi.Name req |}). }
  split; [done|].
  rewrite (DeleteVolume_run cs {| csi.VolumeId_ := id vol |} vol W h w Hdec).
  by rewrite Hm; simpl; rewrite Hr.
Qed.

Lemma DeleteVolume_of_created_witness :
  run alwaysOk
    (DeleteVolume (initTestController "/tmp")
       {| csi.VolumeId_ := "test-server/test-base-dir/test-csi" |}) tt
  = (Reply csi.EmptyDeleteVolumeResponse, tt,
     [NodePublishVolume
        {| csi.TargetPath := "/tmp/test-csi";
           csi.PublishContext :=
             {[ "server" := "test-server";
                "share" := "/test-base-dir" ]} |};
      os_RemoveAll "/tmp/test-csi/test-csi";
      NodeUnpublishVolume {| csi.TargetPath_ := "/tmp/test-csi" |}]).
Proof.
  apply (DeleteVolume_of_created keepRunes (initTestController "/tmp")
           (testRequest "test-csi"
              [("server", "test-server"); ("base-dir", "test-base-dir")])
           {| id := "test-server/test-base-dir/test-csi";
              server := "test-server"; baseDir := "test-base-dir";
              subDir := "test-csi" |}
           unit alwaysOk tt tt tt); reflexivity.
Defined.

(** X11: when the server, the base directory or the name holds a [/],
    the id that [CreateVolume] returns is not decoded: [DeleteVolume] on
    it replies without a call, and the directory stays. *)
Theorem DeleteVolume_of_created_slash (mapLower : string → string)
    (cs : ControllerServer) (req : csi.CreateVolumeRequest)
    (vol : nfsVolume) (W : Type) (h : Op → W → option error * W) (w : W) :
  newNFSVolume mapLower cs (csi.Name req) (csi.Parameters req) = inr vol →
  ¬ (no_slash (server vol) ∧ no_slash (baseDir vol)
     ∧ no_slash (csi.Name req)) →
  run h (DeleteVolume cs {| csi.VolumeId_ := id vol |}) w
  = (Reply csi.EmptyDeleteVolumeResponse, w, []).
Proof.
  intros Hvol Hslash.
  assert (id vol = getVolumeIdFromNfsVol cs vol
          ∧ subDir vol = csi.Name req ∧ server vol ≠ "") as (Hid & Hsub & Hs).
  { revert Hvol. unfold newNFSVolume.
    destruct (rangeParams mapLower _ "" "") as [e|[s b]]; [done|].
    repeat case_bool_decide; try done. by intros [= <-]. }
  pose proof (decode_encode_cases cs vol) as Hdec.
  unfold DeleteVolume. cbn [csi.VolumeId_].
  rewrite bool_decide_false.
  2:{ rewrite Hid, getVolumeIdFromNfsVol_Join. simpl.
      by destruct (server vol). }
  rewrite Hid.
  destruct (getNfsVolFromId cs (getVolumeIdFromNfsVol cs vol)); [done|].
  rewrite Hsub in Hdec. naive_solver.
Qed.

Lemma DeleteVolume_of_created_slash_witness :
  run alwaysOk
    (DeleteVolume (initTestController "/tmp")
       {| csi.VolumeId_ := "test-server//exports/test-csi" |}) tt
  = (Reply csi.EmptyDeleteVolumeResponse, tt, []).
Proof.
  apply (DeleteVolume_of_created_slash keepRunes (initTestController "/tmp")
           (testRequest "test-csi"
              [("server", "test-server"); ("base-dir", "/exports")])
           {| id := "test-server//exports/test-csi";
              server := "test-server"; baseDir := "/exports";
              subDir := "test-csi" |}
           unit alwaysOk tt).
  - reflexivity.
  - intros (_ & Hb & _). discriminate Hb.
Defined.

(** ** What newNFSVolume returns *)

Section ParameterValues.

Variable mapLower : string → string.

(** The loop runs to the end only on recognized keys. *)
Lemma rangeParams_inr_recognized (params : list (string * string))
    (s b s' b' : string) :
  rangeParams mapLower params s b = inr (s', b') →
  Forall (λ kv, recognized mapLower kv.1) params.
Proof.
  intros Hr.
  destruct (Forall_Exists_dec (λ kv, recognized mapLower kv.1)
              (λ kv, ¬ recognized mapLower kv.1)
              (λ kv, recognized_dec mapLower kv.1) params) as [?|Hex];
    [done|].
  destruct (rangeParams_unrecognized mapLower params s b Hex)
    as (k & _ & _ & Hk).
  congruence.
Qed.

(** The server the loop ends with is the one it started from, when no
    key is a key for it, and the value of such a key otherwise. *)
Lemma rangeParams_server (params : list (string * string))
    (s b s' b' : string) :
  rangeParams mapLower params s b = inr (s', b') →
  (s' = s ∧ Forall (λ kv, ¬ matches mapLower paramServer kv.1) params)
  ∨ (∃ k, (k, s') ∈ params ∧ matches mapLower paramServer k).
Proof.
  revert s b. induction params as [|[k v] params IH]; intros s b; simpl.
  { intros [= <- _]. left. by split. }
  case_bool_decide as Hk.
  - intros [[-> Hno]|(k0 & Hin & Hk0)]%IH.
    + right. exists k. split; [by left|done].
    + right. exists k0. split; [by right|done].
  - case_bool_decide; [|done].
    intros [[-> Hno]|(k0 & Hin & Hk0)]%IH.
    + left. split; [done|]. by constructor.
    + right. exists k0. split; [by right|done].
Qed.

Lemma rangeParams_baseDir (params : list (string * string))
    (s b s' b' : string) :
  rangeParams mapLower params s b = inr (s', b') →
  (b' = b ∧ Forall (λ kv, ¬ matches mapLower paramBaseDir kv.1) params)
  ∨ (∃ k, (k, b') ∈ params ∧ matches mapLower paramBaseDir k).
Proof.
  revert s b. induction params as [|[k v] params IH]; intros s b; simpl.
  { intros [= _ <-]. left. by split. }
  case_bool_decide as Hk.
  - intros [[-> Hno]|(k0 & Hin & Hk0)]%IH.
    + left. split; [done|]. constructor; [|done].
      unfold matches. simpl. by rewrite Hk.
    + right. exists k0. split; [by right|done].
  - case_bool_decide as Hk'; [|done].
    intros [[-> Hno]|(k0 & Hin & Hk0)]%IH.
    + right. exists k. split; [by left|done].
    + right. exists k0. split; [by right|done].
Qed.

(** X12: a volume that [newNFSVolume] returns has the name as its
    subdirectory, a server and a base directory that are not empty and
    that are the values of a key for [server] and of a key for
    [base-dir] in the map, and the map has no other kind of key. *)
Theorem newNFSVolume_fields (cs : ControllerServer) (name : string)
    (params : list (string * string)) (vol : nfsVolume) :
  newNFSVolume mapLower cs name params = inr vol →
  subDir vol = name ∧ server vol ≠ "" ∧ baseDir vol ≠ ""
  ∧ (∃ k, (k, server vol) ∈ params ∧ matches mapLower paramServer k)
  ∧ (∃ k, (k, baseDir vol) ∈ params ∧ matches mapLower paramBaseDir k)
  ∧ Forall (λ kv, recognized mapLower kv.1) params.
Proof.
  unfold newNFSVolume.
  destruct (rangeParams mapLower params "" "") as [e|[s b]] eqn:Hr; [done|].
  case_bool_decide as Hs; [done|]. case_bool_decide as Hb; [done|].
  intros [= <-]. simpl. split_and!; [done..| | |].
  - by destruct (rangeParams_server params "" "" s b Hr) as [[? _]|?].
  - by destruct (rangeParams_baseDir params "" "" s b Hr) as [[? _]|?].
  - by eapply rangeParams_inr_recognized.
Qed.

(** X13: on a map whose keys give one value to each parameter,
    [newNFSVolume] returns the same result in every order of the map,
    apart from the key that an invalid-parameter error names. *)
Theorem newNFSVolume_order (cs : ControllerServer) (name : string)
    (params params' : list (string * string)) :
  params ≡ₚ params' → single_valued mapLower params →
  newNFSVolume mapLower cs name params
  = newNFSVolume mapLower cs name params'
  ∨ (∃ k k',
       newNFSVolume mapLower cs name params = inl (ErrInvalidParameter k)
       ∧ newNFSVolume mapLower cs name params'
         = inl (ErrInvalidParameter k')).
Proof.
  intros Hperm Hsv.
  destruct (Forall_Exists_dec (λ kv, recognized mapLower kv.1)
              (λ kv, ¬ recognized mapLower kv.1)
              (λ kv, recognized_dec mapLower kv.1) params) as [Hall|Hex].
  - left.
    assert (Forall (λ kv, recognized mapLower kv.1) params') as Hall'
      by by rewrite <- Hperm.
    destruct (rangeParams_recognized mapLower params "" "" Hall)
      as (s1 & b1 & Hr1).
    destruct (rangeParams_recognized mapLower params' "" "" Hall')
      as (s2 & b2 & Hr2).
    assert (s1 = s2) as <-.
    { destruct (rangeParams_server params "" "" s1 b1 Hr1)
        as [[-> Hno1]|(k1 & Hin1 & Hk1)];
      destruct (rangeParams_server params' "" "" s2 b2 Hr2)
        as [[-> Hno2]|(k2 & Hin2 & Hk2)]; [done| | |].
      - rewrite <- Hperm in Hin2.
        by apply (proj1 (Forall_forall _ _) Hno1) in Hin2.
      - rewrite Hperm in Hin1.
        by apply (proj1 (Forall_forall _ _) Hno2) in Hin1.
      - rewrite <- Hperm in Hin2. unfold matches in *.
        apply (Hsv k1 s1 k2 s2 Hin1 Hin2). congruence. }
    assert (b1 = b2) as <-.
    { destruct (rangeParams_baseDir params "" "" s1 b1 Hr1)
        as [[-> Hno1]|(k1 & Hin1 & Hk1)];
      destruct (rangeParams_baseDir params' "" "" s1 b2 Hr2)
        as [[-> Hno2]|(k2 & Hin2 & Hk2)]; [done| | |].
      - rewrite <- Hperm in Hin2.
        by apply (proj1 (Forall_forall _ _) Hno1) in Hin2.
      - rewrite Hperm in Hin1.
        by apply (proj1 (Forall_forall _ _) Hno2) in Hin1.
      - rewrite <- Hperm in Hin2. unfold matches in *.
        apply (Hsv k1 b1 k2 b2 Hin1 Hin2). congruence. }
    unfold newNFSVolume. by rewrite Hr1, Hr2.
  - right.
    assert (Exists (λ kv, ¬ recognized mapLower kv.1) params') as Hex'
      by by rewrite <- Hperm.
    destruct (rangeParams_unrecognized mapLower params "" "" Hex)
      as (k & _ & _ & Hk).
    destruct (rangeParams_unrecognized mapLower params' "" "" Hex')
      as (k' & _ & _ & Hk').
    exists k, k'. unfold newNFSVolume. by rewrite Hk, Hk'.
Qed.

End ParameterValues.

Lemma newNFSVolume_fields_witness :
  subDir {| id := "test-server/test-base-dir/test-csi";
            server := "test-server"; baseDir := "test-base-dir";
            subDir := "test-csi" |} = "test-csi"
  ∧ "test-server" ≠ "" ∧ "test-base-dir" ≠ "".
Proof.
  destruct (newNFSVolume_fields keepRunes (initTestController "/tmp")
              "test-csi"
              [("Server", "test-server"); ("BASE-DIR", "test-base-dir")]
              {| id := "test-server/test-base-dir/test-csi";
                 server := "test-server"; baseDir := "test-base-dir";
                 subDir := "test-csi" |})
    as (Hsub & Hs & Hb & _); [reflexivity|].
  exact (conj Hsub (conj Hs Hb)).
Defined.

Lemma newNFSVolume_order_witness :
  newNFSVolume keepRunes (initTestController "/tmp") "test-csi"
    [("server", "test-server"); ("base-dir", "test-base-dir")]
  = newNFSVolume keepRunes (initTestController "/tmp") "test-csi"
      [("base-dir", "test-base-dir"); ("server", "test-server")]
  ∨ (∃ k k',
       newNFSVolume keepRunes (initTestController "/tmp") "test-csi"
         [("server", "test-server"); ("base-dir", "test-base-dir")]
       = inl (ErrInvalidParameter k)
       ∧ newNFSVolume keepRunes (initTestController "/tmp") "test-csi"
           [("base-dir", "test-base-dir"); ("server", "test-server")]
         = inl (ErrInvalidParameter k')).
Proof.
  apply (newNFSVolume_order keepRunes (initTestController "/tmp") "test-csi"
           [("server", "test-server"); ("base-dir", "test-base-dir")]
           [("base-dir", "test-base-dir"); ("server", "test-server")]).
  - apply Permutation_swap.
  - intros k v k' v' Hin Hin' Hlow.
    apply elem_of_cons in Hin as [[= -> ->]|Hin];
      [|apply list_elem_of_singleton in Hin as [= -> ->]];
      (apply elem_of_cons in Hin' as [[= -> ->]|Hin'];
       [|apply list_elem_of_singleton in Hin' as [= -> ->]]);
      first [reflexivity | discriminate Hlow].
Defined.

(** ** The paths of a volume *)

Lemma Split_no_slash (sep : ascii) (s : string) :
  Forall (λ e, strings.Contains e sep = false) (strings.Split s sep).
Proof.
  induction s as [|c s IH]; simpl; [by repeat constructor|].
  destruct (Ascii.eqb c sep) eqn:E; [by constructor|].
  pose proof (Split_not_nil sep s) as Hne.
  destruct (strings.Split s sep) as [|t ts]; [done|].
  apply Forall_cons in IH as [Ht Hts].
  constructor; [|done]. simpl. by rewrite E.
Qed.

(** The scan of a rooted path writes plain elements only. *)
Lemma clean_step_rooted (out : list string) (e : string) :
  Forall plain_element out → strings.Contains e "/" = false →
  Forall plain_element (filepath.clean_step true out e).
Proof.
  intros Hout He. unfold filepath.clean_step.
  repeat case_bool_decide; try done.
  - destruct out as [|x out]; [done|].
    apply Forall_cons in Hout as [Hx Hout].
    case_bool_decide; [by constructor|done].
  - constructor; [|done]. by split_and!.
Qed.

Lemma fold_clean_step_rooted (es out : list string) :
  Forall plain_element out →
  Forall (λ e, strings.Contains e "/" = false) es →
  Forall plain_element (fold_left (filepath.clean_step true) es out).
Proof.
  revert out. induction es as [|e es IH]; intros out Hout Hes; [done|].
  apply Forall_cons in Hes as [He Hes]. simpl.
  apply IH; [|done]. by apply clean_step_rooted.
Qed.

(** [Clean] of a path that starts with [/] is [/] followed by plain
    elements: it has no empty element, no [.] and no [..]. *)
Lemma Clean_rooted_clean (path : string) :
  rooted_clean (filepath.Clean (String "/" path)).
Proof.
  unfold filepath.Clean. simpl filepath.rooted. cbv iota.
  eexists. split; [|reflexivity].
  apply Forall_rev, fold_clean_step_rooted; [done|].
  apply Split_no_slash.
Qed.

(** X14: whatever the base directory and the subdirectory of a volume,
    the share path given to the caller and the share mounted by
    [internalMount] are absolute paths of plain elements: they hold no
    empty element, no [.] and no [..]. *)
Theorem share_paths_rooted_clean (cs : ControllerServer) (vol : nfsVolume) :
  rooted_clean (getVolumeSharePath cs vol)
  ∧ ∃ share,
      rooted_clean share
      ∧ internalMount cs vol
        = call (NodePublishVolume
                  {| csi.TargetPath := getInternalMountPath cs vol;
                     csi.PublishContext :=
                       {[ "server" := server vol; "share" := share ]} |}).
Proof.
  split.
  - apply (Clean_rooted_clean
             ("/" +:+ baseDir vol +:+ "/" +:+ subDir vol)).
  - exists (filepath.Clean (String "/" (baseDir vol))).
    split; [apply Clean_rooted_clean|reflexivity].
Qed.

(** X15: under a working directory that is a clean path, volumes with
    plain subdirectories are mounted at [workingMountDir/subDir] and
    made at [workingMountDir/subDir/subDir]; two subdirectories that
    differ give two mount paths that differ. *)
Theorem internal_paths (cs : ControllerServer) (v1 v2 : nfsVolume) :
  clean_path (workingMountDir cs) →
  plain_element (subDir v1) → plain_element (subDir v2) →
  getInternalMountPath cs v1 = workingMountDir cs +:+ "/" +:+ subDir v1
  ∧ getInternalVolumePath cs v1
    = getInternalMountPath cs v1 +:+ "/" +:+ subDir v1
  ∧ (getInternalMountPath cs v1 = getInternalMountPath cs v2 →
     subDir v1 = subDir v2).
Proof.
  intros Hw H1 H2. unfold getInternalVolumePath, getInternalMountPath.
  destruct (Join_clean_path _ _ Hw H1) as [-> Hw1].
  destruct (Join_clean_path _ _ Hw H2) as [-> _].
  destruct (Join_clean_path _ _ Hw1 H1) as [-> _].
  split_and!; [done..|].
  intros Heq. apply (inj (String.app _)) in Heq.
  by apply (inj (String.app "/")) in Heq.
Qed.

Lemma internal_paths_witness :
  getInternalMountPath (initTestController internalMountDir)
    {| id := ""; server := "s"; baseDir := "b"; subDir := "vol1" |}
  = "/provisioner-working-mounts/vol1"
  ∧ getInternalVolumePath (initTestController internalMountDir)
      {| id := ""; server := "s"; baseDir := "b"; subDir := "vol1" |}
    = "/provisioner-working-mounts/vol1/vol1".
Proof.
  destruct (internal_paths (initTestController internalMountDir)
              {| id := ""; server := "s"; baseDir := "b"; subDir := "vol1" |}
              {| id := ""; server := "s"; baseDir := "b"; subDir := "vol2" |})
    as (Hm & Hv & _).
  - exists ["provisioner-working-mounts"].
    split; [done|]. split; [|by right].
    apply Forall_cons_2; [by repeat split|apply Forall_nil_2].
  - by repeat split.
  - by repeat split.
  - split; [exact Hm|]. rewrite Hv, Hm. reflexivity.
Defined.

(** X16: the subdirectory [..] is not confined to the working
    directory: under a working directory [/p], [DeleteVolume] on the id
    [s/b/..] mounts at [/] and removes [/]. *)
Theorem DeleteVolume_dotdot (cs : ControllerServer) (s b p : string)
    (W : Type) (h : Op → W → option error * W) (w w1 w2 : W) :
  let mount :=
    NodePublishVolume
      {| csi.TargetPath := "/";
         csi.PublishContext :=
           {[ "server" := s; "share" := filepath.Join ["/" +:+ b] ]} |} in
  let unmount := NodeUnpublishVolume {| csi.TargetPath_ := "/" |} in
  workingMountDir cs = String "/" p → plain_element p →
  no_slash s → no_slash b →
  h mount w = (None, w1) →
  h (os_RemoveAll "/") w1 = (None, w2) →
  run h (DeleteVolume cs {| csi.VolumeId_ := s +:+ "/" +:+ b +:+ "/.." |}) w
  = (Reply csi.EmptyDeleteVolumeResponse, (h unmount w2).2,
     [mount; os_RemoveAll "/"; unmount]).
Proof.
  intros mount unmount Hw Hp Hs Hb Hm Hr.
  set (vol := {| id := s +:+ "/" +:+ b +:+ "/.."; server := s;
                 baseDir := b; subDir := ".." |}).
  assert (getNfsVolFromId cs (s +:+ "/" +:+ b +:+ "/..") = inr vol) as Hdec.
  { apply (getNfsVolFromId_encode cs
             {| id := ""; server := s; baseDir := b; subDir := ".." |});
      done. }
  assert (getInternalMountPath cs vol = "/") as Hmp.
  { unfold getInternalMountPath. rewrite Hw. simpl filepath.Join.
    change (String "/" p +:+ "/" +:+ "..")
      with (String "/" (p +:+ String "/" "..")).
    unfold filepath.Clean, filepath.Separator. simpl filepath.rooted.
    cbv iota.
    change (strings.Split (String "/" (p +:+ String "/" "..")) "/")
      with ("" :: strings.Split (p +:+ String "/" "..") "/").
    rewrite Split_app_sep by apply Hp.
    simpl. rewrite (clean_step_plain true _ p Hp).
    unfold filepath.clean_step at 1. simpl.
    rewrite bool_decide_false by apply Hp. reflexivity. }
  assert (getInternalVolumePath cs vol = "/") as Hvp.
  { unfold getInternalVolumePath. by rewrite Hmp. }
  rewrite (DeleteVolume_run cs
             {| csi.VolumeId_ := s +:+ "/" +:+ b +:+ "/.." |} vol W h w Hdec).
  unfold mountOp, unmountOp. rewrite Hmp, Hvp.
  change (server vol) with s. change (baseDir vol) with b.
  fold mount. fold unmount.
  by rewrite Hm; simpl; rewrite Hr.
Qed.

Lemma DeleteVolume_dotdot_witness :
  run alwaysOk
    (DeleteVolume (initTestController internalMountDir)
       {| csi.VolumeId_ := "s/b/.." |}) tt
  = (Reply csi.EmptyDeleteVolumeResponse, tt,
     [NodePublishVolume
        {| csi.TargetPath := "/";
           csi.PublishContext := {[ "server" := "s"; "share" := "/b" ]} |};
      os_RemoveAll "/";
      NodeUnpublishVolume {| csi.TargetPath_ := "/" |}]).
Proof.
  apply (DeleteVolume_dotdot (initTestController internalMountDir)
           "s" "b" "provisioner-working-mounts" unit alwaysOk tt tt tt);
    first [reflexivity | by repeat split].
Defined.

(** X17: the ids of two volumes whose fields hold no [/] are the same
    only if the volumes have the same server, base directory and
    subdirectory. *)
Theorem getVolumeIdFromNfsVol_inj (cs : ControllerServer)
    (v1 v2 : nfsVolume) :
  no_slash (server v1) → no_slash (baseDir v1) → no_slash (subDir v1) →
  no_slash (server v2) → no_slash (baseDir v2) → no_slash (subDir v2) →
  getVolumeIdFromNfsVol cs v1 = getVolumeIdFromNfsVol cs v2 →
  server v1 = server v2 ∧ baseDir v1 = baseDir v2 ∧ subDir v1 = subDir v2.
Proof.
  intros Hs1 Hb1 Hd1 Hs2 Hb2 Hd2 Heq.
  pose proof (getNfsVolFromId_encode cs v1 Hs1 Hb1 Hd1) as H1.
  pose proof (getNfsVolFromId_encode cs v2 Hs2 Hb2 Hd2) as H2.
  rewrite Heq, H2 in H1. by injection H1 as -> -> ->.
Qed.

Lemma getVolumeIdFromNfsVol_inj_witness :
  server {| id := "x"; server := "s"; baseDir := "b"; subDir := "d" |}
  = server {| id := "s/b/d"; server := "s"; baseDir := "b"; subDir := "d" |}.
Proof.
  apply (getVolumeIdFromNfsVol_inj (initTestController "/tmp")
           {| id := "x"; server := "s"; baseDir := "b"; subDir := "d" |}
           {| id := "s/b/d"; server := "s"; baseDir := "b"; subDir := "d" |});
    reflexivity.
Defined.

(** ** The driver and the capabilities *)

Lemma AddVolumeCapabilityAccessModes_cons (n : nfsDriver)
    (c : csi.VolumeCapability_AccessMode_Mode)
    (vc : list csi.VolumeCapability_AccessMode_Mode) :
  AddVolumeCapabilityAccessModes n (c :: vc)
  = AddVolumeCapabilityAccessModes
      {| name := name n; nodeID := nodeID n; version_ := version_ n;
         endpoint := endpoint n; cap := <[c := true]> (cap n) |} vc.
Proof. reflexivity. Qed.

(** X18: after [AddVolumeCapabilityAccessModes] the driver supports the
    access modes of the list and those it supported before, and no
    other; its name, node id, version and endpoint are unchanged; the
    slice returned holds the access modes of the list, in order. *)
Theorem AddVolumeCapabilityAccessModes_supports (n : nfsDriver)
    (vc : list csi.VolumeCapability_AccessMode_Mode)
    (m : csi.VolumeCapability_AccessMode_Mode) :
  let n' := AddVolumeCapabilityAccessModes n vc in
  (supports n' m ↔ m ∈ vc ∨ supports n m)
  ∧ name n' = name n ∧ nodeID n' = nodeID n ∧ version_ n' = version_ n
  ∧ endpoint n' = endpoint n
  ∧ csi.Mode <$> AddVolumeCapabilityAccessModes_vca vc = vc.
Proof.
  split; [|split_and!].
  - revert n. induction vc as [|c vc IH]; intros n.
    + simpl. rewrite elem_of_nil. naive_solver.
    + rewrite AddVolumeCapabilityAccessModes_cons, IH, elem_of_cons.
      unfold supports. simpl. rewrite lookup_insert.
      case_decide; naive_solver.
  - revert n. induction vc as [|c vc IH]; intros n; [done|].
    by rewrite AddVolumeCapabilityAccessModes_cons, IH.
  - revert n. induction vc as [|c vc IH]; intros n; [done|].
    by rewrite AddVolumeCapabilityAccessModes_cons, IH.
  - revert n. induction vc as [|c vc IH]; intros n; [done|].
    by rewrite AddVolumeCapabilityAccessModes_cons, IH.
  - revert n. induction vc as [|c vc IH]; intros n; [done|].
    by rewrite AddVolumeCapabilityAccessModes_cons, IH.
  - unfold AddVolumeCapabilityAccessModes_vca.
    rewrite <- list_fmap_compose. apply list_fmap_id.
Qed.

(** X19: the controller of the driver of [NewNFSdriver] accepts a
    capability exactly when its access mode is set to one of the five
    modes from [SINGLE_NODE_WRITER] to [MULTI_NODE_MULTI_WRITER] and
    its access type carries a mount descriptor; [UNKNOWN] and numbers
    outside the enumeration are refused. *)
Theorem NewNFSdriver_validateVolumeCapability (nodeID endpoint : string)
    (workingDir : string) (c : csi.VolumeCapability) :
  validateVolumeCapability
    (NewControllerServer (NewNFSdriver nodeID endpoint) workingDir) (Some c)
  = None
  ↔ (∃ am, csi.AccessMode c = Some am ∧ 1 ≤ csi.Mode am ≤ 5)
    ∧ mount_descriptor c.
Proof.
  set (cs := NewControllerServer (NewNFSdriver nodeID endpoint) workingDir).
  pose proof (validateVolumeCapability_Some cs (Some c)) as Hrej.
  assert (∀ m, supports (Driver cs) m ↔ 1 ≤ m ≤ 5) as Hsup
    by apply NewNFSdriver_supports.
  unfold rejected_capability in Hrej.
  destruct (validateVolumeCapability cs (Some c)) as [err|] eqn:Hv.
  - split; [done|]. intros [(am & Ham & Hm) Hmd]. exfalso.
    destruct Hrej as [Hrej _]. destruct Hrej as [?|[(am' & ? & Hno)|[?|?]]];
      [by eauto|congruence| |by destruct Hmd; congruence|done].
    apply Hno, Hsup. congruence.
  - split; [intros _|done].
    destruct Hrej as [_ Hrej].
    destruct (csi.AccessMode c) as [am|] eqn:Ham.
    2:{ destruct Hrej as [? ?]; [by left|done]. }
    destruct (decide (1 ≤ csi.Mode am ≤ 5)) as [Hm|Hm].
    2:{ destruct Hrej as [? ?]; [|done]. right; left. exists am.
        split; [done|]. by rewrite Hsup. }
    split; [by eauto|].
    destruct (csi.AccessType c) as [[blk|[mv|]]|] eqn:Hat.
    + destruct Hrej as [? ?]; [|done]. do 3 right.
      intros [mv Hmv]. congruence.
    + by exists mv.
    + destruct Hrej as [? ?]; [|done]. do 3 right.
      intros [mv Hmv]. congruence.
    + destruct Hrej as [? ?]; [|done]. right; right; by left.
Qed.

(** X20: [validateVolumeCapabilities] returns the error of the first
    capability of the list that [validateVolumeCapability] refuses. *)
Theorem validateVolumeCapabilities_first (cs : ControllerServer)
    (l1 l2 : list (option csi.VolumeCapability))
    (c : option csi.VolumeCapability) (err : error) :
  Forall (λ c, validateVolumeCapability cs c = None) l1 →
  validateVolumeCapability cs c = Some err →
  validateVolumeCapabilities cs (l1 ++ c :: l2) = Some err.
Proof.
  intros Hl1 Hc. unfold validateVolumeCapabilities.
  rewrite bool_decide_false by (by destruct l1).
  induction Hl1 as [|c1 l1 Hc1 Hl1 IH]; simpl; [by rewrite Hc|].
  by rewrite Hc1.
Qed.

Lemma validateVolumeCapabilities_first_witness :
  validateVolumeCapabilities (initTestController "/tmp")
    ([testCapability]
     ++ Some {| csi.AccessType := None;
                csi.AccessMode := Some {| csi.Mode := 5 |} |}
        :: [None])
  = Some ErrAccessTypeNotSet.
Proof.
  apply (validateVolumeCapabilities_first (initTestController "/tmp")
           [testCapability] [None]).
  - apply Forall_cons_2; [reflexivity|apply Forall_nil_2].
  - reflexivity.
Defined.
